(** * The FIM corpus pipeline of starcoder2finetune, embedded in Rocq

    The development follows the Python sources:
    - [pipeline/extract_nextline_pairs.py]       (module [ExtractNextlinePairs])
    - [pipeline/filter_quality_fim_tasks.py]     (module [FilterQualityFimTasks])
    - [apply_middle_content_filter.py]           (module [ApplyMiddleContentFilter])
    - [pipeline/apply_phase3b_improved_filter.py] (module [ApplyPhase3bImprovedFilter])
    - [pipeline/calculate_comprehensive_quality_scores.py]
                                                 (module [CalculateComprehensiveQualityScores])

    Python [str] values are lists of characters; a character is a code point
    below 256 ([ascii]), with Python's own classification of those code
    points ([str.isspace], [str.isalnum], [str.lower], and the classes [\s]
    and [\w] of the [re] module on [str] patterns).  Python floats are the
    kernel's binary64 floats.  JSON objects are finite maps from keys to JSON
    values. *)

From stdpp Require Import base option list gmap strings.
From Stdlib Require Import Ascii ZArith Lia Bool Floats.
From Stdlib Require Strings.String DecimalString.
Import String.StringSyntax.

Local Open Scope string_scope.
Local Open Scope list_scope.
Local Open Scope bool_scope.

Abbreviation string := String.string.

(** ** Python strings *)

Module Py.

Definition str : Set := list ascii.

Definition lit (s : string) : str := String.list_ascii_of_string s.
Coercion lit : string >-> str.

Definition code (c : ascii) : nat := nat_of_ascii c.

Definition between (lo hi : nat) (c : ascii) : bool :=
  (lo <=? code c)%nat && (code c <=? hi)%nat.

Definition nl : ascii := ascii_of_nat 10.
Definition dquote : ascii := ascii_of_nat 34.

(** [str.isspace] on one character: the code points 9-13, 28-32, 133, 160. *)
Definition isspace (c : ascii) : bool :=
  between 9 13 c || between 28 32 c || (code c =? 133)%nat || (code c =? 160)%nat.

(** [str.isalnum] on one character (alphabetic, decimal, digit or numeric). *)
Definition isalnum (c : ascii) : bool :=
  between 48 57 c || between 65 90 c || between 97 122 c
  || (code c =? 170)%nat || between 178 179 c || (code c =? 181)%nat
  || between 185 186 c || between 188 190 c
  || between 192 214 c || between 216 246 c || between 248 255 c.

(** [str.lower] on one character: A-Z and the upper-case letters of Latin-1. *)
Definition lower_char (c : ascii) : ascii :=
  if between 65 90 c || between 192 214 c || between 216 222 c
  then ascii_of_nat (code c + 32) else c.

Definition lower (s : str) : str := map lower_char s.

Definition len (s : str) : nat := length s.

(** [s.lstrip(chars)], [s.rstrip(chars)] and [s.strip(chars)] for a
    predicate on characters; without argument the predicate is [isspace]. *)
Fixpoint lstrip_by (p : ascii -> bool) (s : str) : str :=
  match s with
  | [] => []
  | c :: s' => if p c then lstrip_by p s' else s
  end.

Definition rstrip_by (p : ascii -> bool) (s : str) : str :=
  rev (lstrip_by p (rev s)).

Definition lstrip (s : str) : str := lstrip_by isspace s.
Definition rstrip (s : str) : str := rstrip_by isspace s.
Definition strip (s : str) : str := rstrip (lstrip s).

Definition mem_char (chars : str) (c : ascii) : bool :=
  existsb (Ascii.eqb c) chars.

Definition rstrip_chars (s chars : str) : str := rstrip_by (mem_char chars) s.

(** [s.startswith(p)], [s.endswith(p)], [sub in s]. *)
Fixpoint startswith (s p : str) {struct p} : bool :=
  match p, s with
  | [], _ => true
  | a :: p', b :: s' => Ascii.eqb a b && startswith s' p'
  | _ :: _, [] => false
  end.

Definition endswith (s p : str) : bool := startswith (rev s) (rev p).

Fixpoint contains (sub s : str) {struct s} : bool :=
  startswith s sub ||
  match s with
  | [] => false
  | _ :: s' => contains sub s'
  end.

(** [s.split('\n')]: never the empty list. *)
Fixpoint split_nl (s : str) : list str :=
  match s with
  | [] => [[]]
  | c :: s' =>
      if Ascii.eqb c nl then [] :: split_nl s'
      else match split_nl s' with
           | l :: ls => (c :: l) :: ls
           | [] => [[c]]
           end
  end.

(** ['\n'.join(lines)]. *)
Fixpoint join_nl (ls : list str) : str :=
  match ls with
  | [] => []
  | [l] => l
  | l :: ls' => l ++ nl :: join_nl ls'
  end.

(** [s.count(c)] for a one-character [c]. *)
Definition count_char (c : ascii) (s : str) : nat :=
  length (List.filter (fun x => Ascii.eqb x c) s).

(** Truth value of a string or list: non-empty. *)
Definition truthy {A} (l : list A) : bool :=
  match l with [] => false | _ => true end.

(** [any(kw in m for kw in kws)]. *)
Definition any_in (kws : list str) (m : str) : bool :=
  existsb (fun kw => contains kw m) kws.

End Py.

Import Py.

(** ** The fragment of Python's [re] the sources use

    Literals, character classes, concatenation, alternation, optional
    groups, greedy and lazy repetition of a character class ([\s*], [\w+],
    [[^)]*], [.*], [.*?]), the anchors [^], [$] and [\b], and the one capture
    group whose text the sources read with [group(1)].  The matcher is
    Python's: it backtracks, tries alternatives left to right, a greedy
    repetition longest first and a lazy one shortest first, and returns the
    first match found. *)

Module Re.

Definition cls := ascii -> bool.

Inductive regex : Type :=
| Eps : regex
| Cls : cls -> regex
| Cat : regex -> regex -> regex
| Alt : regex -> regex -> regex
| Rep : bool -> cls -> regex     (* [Rep true p] is [p*], [Rep false p] is [p*?] *)
| Bol : regex                    (* [^] *)
| Eol : regex                    (* [$], without MULTILINE *)
| WordB : regex                  (* [\b] *)
| Grp : regex -> regex.          (* the capture group read by [group(1)] *)

(** Character classes. *)
Definition chr (c : ascii) : cls := fun x => Ascii.eqb x c.
Definition ws : cls := isspace.                                   (* [\s] *)
Definition word : cls := fun c => isalnum c || Ascii.eqb c "_".   (* [\w] *)
Definition any : cls := fun _ => true.                            (* [.] with DOTALL *)
Definition dot : cls := fun c => negb (Ascii.eqb c nl).           (* [.] *)
Definition oneof (chars : str) : cls := mem_char chars.           (* [[...]] *)
Definition noneof (chars : str) : cls := fun c => negb (mem_char chars c).
Definition upper_AZ : cls := between 65 90.                       (* [[A-Z]] *)
Definition cup (p q : cls) : cls := fun c => p c || q c.

(** Derived forms. *)
Fixpoint Lit (s : str) : regex :=
  match s with
  | [] => Eps
  | c :: s' => Cat (Cls (chr c)) (Lit s')
  end.
Definition Star (p : cls) : regex := Rep true p.
Definition Lazy (p : cls) : regex := Rep false p.
Definition Plus (p : cls) : regex := Cat (Cls p) (Rep true p).
Definition Opt (r : regex) : regex := Alt r Eps.
Fixpoint Seq (rs : list regex) : regex :=
  match rs with
  | [] => Eps
  | [r] => r
  | r :: rs' => Cat r (Seq rs')
  end.
Fixpoint Any_of (rs : list regex) : regex :=
  match rs with
  | [] => Cls (fun _ => false)
  | [r] => r
  | r :: rs' => Alt r (Any_of rs')
  end.

(** [$] holds at the end of the string and just before a final newline. *)
Definition at_eol (s : str) : bool :=
  match s with
  | [] => true
  | [c] => Ascii.eqb c nl
  | _ => false
  end.

Definition is_word (c : option ascii) : bool :=
  match c with Some c => word c | None => false end.

(** [\b] holds between a word character and a non-word character (or an
    end of the string). *)
Definition at_wordb (prev : option ascii) (s : str) : bool :=
  xorb (is_word prev) (is_word (head s)).

Section Matcher.
Context {R : Type}.

(** A continuation receives the character before the position, the rest
    of the subject and the text of group 1. *)
Definition cont := option ascii -> str -> option str -> option R.

Fixpoint rep_greedy (p : cls) (prev : option ascii) (s : str)
    (k : option ascii -> str -> option R) : option R :=
  match s with
  | c :: s' =>
      if p c then
        match rep_greedy p (Some c) s' k with
        | Some m => Some m
        | None => k prev s
        end
      else k prev s
  | [] => k prev s
  end.

Fixpoint rep_lazy (p : cls) (prev : option ascii) (s : str)
    (k : option ascii -> str -> option R) : option R :=
  match k prev s with
  | Some m => Some m
  | None =>
      match s with
      | c :: s' => if p c then rep_lazy p (Some c) s' k else None
      | [] => None
      end
  end.

Fixpoint exec (r : regex) (prev : option ascii) (s : str) (cap : option str)
    (k : cont) : option R :=
  match r with
  | Eps => k prev s cap
  | Cls p =>
      match s with
      | c :: s' => if p c then k (Some c) s' cap else None
      | [] => None
      end
  | Cat r1 r2 =>
      exec r1 prev s cap (fun prev' s' cap' => exec r2 prev' s' cap' k)
  | Alt r1 r2 =>
      match exec r1 prev s cap k with
      | Some m => Some m
      | None => exec r2 prev s cap k
      end
  | Rep true p => rep_greedy p prev s (fun prev' s' => k prev' s' cap)
  | Rep false p => rep_lazy p prev s (fun prev' s' => k prev' s' cap)
  | Bol => match prev with None => k prev s cap | Some _ => None end
  | Eol => if at_eol s then k prev s cap else None
  | WordB => if at_wordb prev s then k prev s cap else None
  | Grp r1 =>
      exec r1 prev s cap
        (fun prev' s' _ => k prev' s' (Some (take (length s - length s') s)))
  end.

End Matcher.

(** A match object, as far as the sources use it: the text of group 1. *)
Definition match_obj : Type := option str.

Definition accept : @cont match_obj := fun _ _ cap => Some cap.

(** [re.match(r, s)]: a match at the start of [s]. *)
Definition re_match (r : regex) (s : str) : option match_obj :=
  exec r None s None accept.

(** [re.search(r, s)]: the first position of [s] with a match. *)
Fixpoint search_from (r : regex) (prev : option ascii) (s : str) : option match_obj :=
  match exec r prev s None accept with
  | Some m => Some m
  | None =>
      match s with
      | [] => None
      | c :: s' => search_from r (Some c) s'
      end
  end.

Definition re_search (r : regex) (s : str) : option match_obj :=
  search_from r None s.

(** [match] used as a truth value. *)
Definition found (m : option match_obj) : bool :=
  match m with Some _ => true | None => false end.

(** [match.group(1)]; the empty string stands for Python's [None] of a
    group that took no part in the match. *)
Definition group1 (m : match_obj) : str :=
  match m with Some t => t | None => [] end.

End Re.

Import Re.

(** ** JSON values and records

    A line of a corpus file is one JSON object; [json.loads] gives a [dict]
    with string keys. *)

Module Json.

#[local] Unset Elimination Schemes.
Inductive jval : Type :=
| JNull : jval
| JBool : bool -> jval
| JInt : Z -> jval
| JFloat : float -> jval
| JStr : str -> jval
| JArr : list jval -> jval
| JObj : list (string * jval) -> jval.
#[local] Set Elimination Schemes.

Abbreviation record := (gmap string jval).

(** [data.get('content', '')]. *)
Definition get_content (data : record) : jval :=
  match data !! "content" with
  | Some v => v
  | None => JStr []
  end.

End Json.

Import Json.

(** ** Python integers, ranges and loops *)

Module Loop.

(** [range(lo, hi)] and [range(lo, hi, step)] for a positive [step]. *)
Definition range (lo hi : Z) : list Z :=
  map (fun k => (lo + Z.of_nat k)%Z) (seq 0 (Z.to_nat (hi - lo))).

Definition range_step (lo hi step : Z) : list Z :=
  map (fun k => (lo + step * Z.of_nat k)%Z)
      (seq 0 (Z.to_nat ((hi - lo + step - 1) / step))).

Definition zlen {A : Type} (l : list A) : Z := Z.of_nat (length l).

(** [l[i]]: a negative index counts from the end, and an index outside the
    list raises [IndexError], which is [None] here. *)
Definition getitem {A : Type} (l : list A) (i : Z) : option A :=
  if (0 <=? i)%Z then l !! Z.to_nat i
  else if (0 <=? zlen l + i)%Z then l !! Z.to_nat (zlen l + i)
  else None.

(** [for x in xs: st = body st x], where the body may raise. *)
Definition try_for_each {A S : Type} (xs : list A) (body : S -> A -> option S)
    (st : S) : option S :=
  fold_left (fun acc x => acc ≫= fun st => body st x) xs (Some st).

Definition str_eqb (a b : str) : bool := bool_decide (a = b).

End Loop.

Import Loop.

(** ** pipeline/extract_nextline_pairs.py *)

Module ExtractNextlinePairs.

Definition template_marker (l : str) : bool :=
  contains "| Templates *" l
  || contains "open the template in the editor. */ /* *" l.

Definition comment_start (stripped : str) : bool :=
  startswith stripped "//" || startswith stripped "/*"
  || startswith stripped "*" || startswith stripped "*/".

Definition is_code_line (line : str) : bool :=
  let stripped := strip line in
  if negb (truthy stripped) then false
  else if comment_start stripped then false
  else if template_marker line then false
  else true.

(** The pattern of lines that are only brackets, semicolons and the like. *)
Definition only_punct_re : regex :=
  Seq [Bol; Star (cup ws (oneof "{}[]();,.")); Eol].

Fixpoint has_real_code_from (real_code_count : nat) (lines : list str) : bool :=
  match lines with
  | [] => false
  | line :: rest =>
      let stripped := strip line in
      if negb (truthy stripped) then has_real_code_from real_code_count rest
      else if comment_start stripped then has_real_code_from real_code_count rest
      else if found (re_match only_punct_re stripped)
        then has_real_code_from real_code_count rest
      else if startswith stripped "#" && negb (startswith stripped "#include")
        then has_real_code_from real_code_count rest
      else
        let real_code_count := S real_code_count in
        if (1 <=? real_code_count)%nat then true
        else has_real_code_from real_code_count rest
  end.

Definition has_real_code (lines : list str) : bool := has_real_code_from 0 lines.

Definition leading_droppable (l : str) : bool :=
  negb (truthy (strip l)) || startswith (strip l) "/*"
  || startswith (strip l) "//" || startswith (strip l) "*".

Definition comment_line (l : str) : bool :=
  startswith (strip l) "/*" || startswith (strip l) "//" || startswith (strip l) "*".

Fixpoint drop_leading (context_lines : list str) : list str :=
  match context_lines with
  | [] => []
  | l :: rest => if leading_droppable l then drop_leading rest else context_lines
  end.

Definition clean_input_context (context_lines : list str) : list str :=
  List.filter (fun l => negb (comment_line l)) (drop_leading context_lines).

(** [while cleaned and cleaned[-1].strip() == '{': cleaned = cleaned[:-1]];
    every turn removes a line, so the length of the list bounds the turns. *)
Fixpoint pop_open_braces (fuel : nat) (cleaned : list str) : list str :=
  match fuel with
  | 0 => cleaned
  | S fuel' =>
      if truthy cleaned && str_eqb (strip (List.last cleaned [])) "{"
      then pop_open_braces fuel' (removelast cleaned)
      else cleaned
  end.

(** The last loop of [clean_output_lines], with its counter. *)
Fixpoint pop_unpaired (fuel : nat) (cleaned : list str)
    (open_brackets close_brackets : nat) : list str :=
  match fuel with
  | 0 => cleaned
  | S fuel' =>
      if truthy cleaned && (open_brackets <? close_brackets)%nat
         && str_eqb (strip (List.last cleaned [])) "}"
      then pop_unpaired fuel' (removelast cleaned) open_brackets (close_brackets - 1)
      else cleaned
  end.

Definition sum_count (c : ascii) (ls : list str) : nat :=
  fold_right Nat.add 0 (map (count_char c) ls).

Definition clean_output_lines (output_lines : list str) : list str :=
  let cleaned := List.filter (fun l => negb (str_eqb (strip l) "{")) output_lines in
  let cleaned := pop_open_braces (length cleaned) cleaned in
  let cleaned :=
    match cleaned with
    | [l] => if endswith (strip l) "{" then [rstrip (rstrip_chars l " {")] else cleaned
    | _ => cleaned
    end in
  let cleaned := map lstrip cleaned in
  let cleaned := List.filter (fun l => negb (str_eqb (strip l) "}")) cleaned in
  let open_brackets := sum_count "{" cleaned in
  let close_brackets := sum_count "}" cleaned in
  pop_unpaired (length cleaned) cleaned open_brackets close_brackets.

(** The pattern of the openers [#if], [#ifdef], [#ifndef]. *)
Definition if_re : regex :=
  Seq [Lit "#"; Star ws; Lit "if"; Opt (Alt (Lit "def") (Lit "ndef")); WordB].

Fixpoint scan_preprocessor (stack : list str) (context_lines : list str) : bool :=
  match context_lines with
  | [] => false
  | line :: rest =>
      let stripped := strip line in
      if startswith stripped "#" then
        if found (re_match if_re stripped) then
          scan_preprocessor (stack ++ [lit "if"]) rest
        else if startswith stripped "#else" then
          if negb (truthy stack) then true else scan_preprocessor stack rest
        else if startswith stripped "#elif" then
          if negb (truthy stack) then true else scan_preprocessor stack rest
        else if startswith stripped "#endif" then
          if negb (truthy stack) then true
          else scan_preprocessor (removelast stack) rest
        else scan_preprocessor stack rest
      else scan_preprocessor stack rest
  end.

Definition has_invalid_preprocessor_structure (context_lines : list str) : bool :=
  scan_preprocessor [] context_lines.

(** The pattern of a last context line that is only closing punctuation. *)
Definition closing_re : regex :=
  Seq [Bol; Star ws; Plus (oneof "}];,"); Star ws; Eol].

Definition fim_content (prefix middle : str) : str :=
  lit "<fim_prefix>" ++ prefix ++ lit "<fim_suffix><fim_middle>" ++ middle.

Definition fim_record (pair_tuple : str * str) : record :=
  {[ "content" := JStr (fim_content pair_tuple.1 pair_tuple.2) ]}.

(** The loop state: the list [pairs] and the set [seen_pairs]. *)
Definition state : Type := list record * gset (str * str).

Section Extraction.
Variable lines : list str.
Variables min_context max_context max_output : Z.

Definition code_indices : list Z :=
  map (fun il => Z.of_nat il.1)
      (List.filter (fun il => is_code_line il.2)
                   (combine (seq 0 (length lines)) lines)).

(** [[lines[i].rstrip('\n') for i in range(context_start, context_end+1)]],
    cleaned; [None] when an index is outside [lines]. *)
Definition context_window (context_start context_end : Z) : option (list str) :=
  context_lines ← mapM (fun i => l ← getitem lines i; Some (rstrip_chars l [nl]))
                       (range context_start (context_end + 1));
  Some (clean_input_context context_lines).

(** The lines of the next [n_out] code lines after code line [idx], as far
    as the file has them, cleaned. *)
Definition output_window (n_out idx : Z) : option (list str) :=
  output_lines ← mapM (fun j => i ← getitem code_indices (idx + j);
                                l ← getitem lines i;
                                Some (rstrip_chars l [nl]))
                      (List.filter (fun j => (idx + j <? zlen code_indices)%Z)
                                   (range 1 (n_out + 1)));
  Some (clean_output_lines output_lines).

(** One turn of the innermost loop, up to the pair it builds.  The outer
    [None] is an [IndexError]; the inner [None] stands for every [continue]
    and every failed [if]. *)
Definition candidate (n_out idx context_len : Z) : option (option (str * str)) :=
  context_end ← getitem code_indices idx;
  let context_start := (context_end - context_len + 1)%Z in
  if (context_start <? 0)%Z then Some None else
  context_lines ← context_window context_start context_end;
  if has_invalid_preprocessor_structure context_lines then Some None else
  output_lines ← output_window n_out idx;
  Some (if truthy context_lines && truthy output_lines then
          if negb (has_real_code output_lines) then None
          else if negb (found (re_match closing_re (List.last context_lines [])))
                  && negb (existsb template_marker (context_lines ++ output_lines))
          then Some (join_nl context_lines, join_nl output_lines)
          else None
        else None).

(** The end of the turn: the pair is appended unless it was seen. *)
Definition emit (st : state) (c : option (str * str)) : state :=
  match c with
  | None => st
  | Some pair_tuple =>
      if bool_decide (pair_tuple ∉ st.2)
      then (st.1 ++ [fim_record pair_tuple], st.2 ∪ {[ pair_tuple ]})
      else st
  end.

Definition turn (n_out : Z) (st : state) (idx context_len : Z) : option state :=
  c ← candidate n_out idx context_len; Some (emit st c).

Definition strategy1 (st : state) : option state :=
  try_for_each [1%Z; 2%Z] (fun st output_len =>
    try_for_each (range 0 (zlen code_indices - output_len)) (fun st idx =>
      try_for_each (range min_context (max_context + 1)) (fun st context_len =>
        turn output_len st idx context_len) st) st) st.

Definition strategy2 (st : state) : option state :=
  let step_size := 2%Z in
  try_for_each (range_step 0 (zlen code_indices - max_output) step_size) (fun st idx =>
    try_for_each (range min_context (max_context + 1)) (fun st context_len =>
      turn max_output st idx context_len) st) st.

Definition extract_pairs_with (st : state) : option state :=
  strategy1 st ≫= strategy2.

End Extraction.

(** [extract_pairs_from_file], from the lines [readlines] returns: the list
    [pairs], or [None] when the run ends in an [IndexError]. *)
Definition extract_pairs_from_file (lines : list str)
    (min_context max_context max_output : Z) : option (list record) :=
  st ← extract_pairs_with lines min_context max_context max_output ([], ∅);
  Some st.1.

(** With the default arguments. *)
Definition extract_pairs (lines : list str) : option (list record) :=
  extract_pairs_from_file lines 2 10 2.

End ExtractNextlinePairs.

(** ** Python floats and the built-ins the sources apply to them *)

Module PyFloat.

#[local] Set Warnings "-inexact-float".
Local Open Scope float_scope.

(** [min(a, b)] and [max(a, b)] keep the first argument unless the second
    is strictly smaller (greater). *)
Definition py_min (a b : float) : float := if PrimFloat.ltb b a then b else a.
Definition py_max (a b : float) : float := if PrimFloat.ltb a b then b else a.

(** The float of a length; lengths are far below [2^53], where the
    conversion is exact and [m / p] on integers is the float division. *)
Definition of_len (n : nat) : float :=
  PrimFloat.of_uint63 (Uint63.of_Z (Z.of_nat n)).

(** [a / b] for two lengths, [b] positive. *)
Definition true_div (a b : nat) : float := PrimFloat.div (of_len a) (of_len b).

(** [a >= b], [a <= b], [a < b] and [a > b]. *)
Definition ge (a b : float) : bool := PrimFloat.leb b a.
Definition le (a b : float) : bool := PrimFloat.leb a b.
Definition lt (a b : float) : bool := PrimFloat.ltb a b.
Definition gt (a b : float) : bool := PrimFloat.ltb b a.

(** [int(f)]: truncation toward zero of a finite float. *)
Definition int (f : float) : Z :=
  match Prim2SF f with
  | S754_finite s m e =>
      let a := if (0 <=? e)%Z then (Z.pos m * 2 ^ e)%Z
               else (Z.pos m / 2 ^ (- e))%Z in
      if s then (- a)%Z else a
  | _ => 0%Z
  end.

(** [str(n)] for an integer. *)
Definition str_of_int (n : Z) : str :=
  lit (DecimalString.NilZero.string_of_int (Z.to_int n)).

End PyFloat.

Import PyFloat.

(** ** pipeline/filter_quality_fim_tasks.py (Phase 1) *)

Module FilterQualityFimTasks.

#[local] Set Warnings "-inexact-float".

Definition fim_prefix_re : regex :=
  Seq [Lit "<fim_prefix>"; Grp (Lazy any); Lit "<fim_suffix>"].
Definition fim_suffix_re : regex :=
  Seq [Lit "<fim_suffix>"; Grp (Lazy any); Lit "<fim_middle>"].
Definition fim_middle_re : regex :=
  Seq [Lit "<fim_middle>"; Grp (Lazy any); Eol].

(** [parts] is a dict with the keys among prefix, suffix, middle. *)
Definition set_group (key : string) (m : option match_obj)
    (parts : gmap string str) : gmap string str :=
  match m with
  | Some mo => <[ key := group1 mo ]> parts
  | None => parts
  end.

Definition extract_fim_parts (content : str) : gmap string str :=
  let parts := ∅ in
  let parts := set_group "prefix" (re_search fim_prefix_re content) parts in
  let parts := set_group "suffix" (re_search fim_suffix_re content) parts in
  let parts := set_group "middle" (re_search fim_middle_re content) parts in
  parts.

(** [parts.get(key, '')]. *)
Definition get (parts : gmap string str) (key : string) : str :=
  default [] (parts !! key).

Definition matches_any (rs : list regex) (s : str) : bool :=
  existsb (fun r => found (re_match r s)) rs.
Definition searches_any (rs : list regex) (s : str) : bool :=
  existsb (fun r => found (re_search r s)) rs.

Definition punct : cls := cup ws (oneof "{}[]();,.").

Definition meaningless_patterns : list regex :=
  [ Seq [Bol; Plus (oneof ";,"); Eol];
    Seq [Bol; Star ws; Lit ")"; Star ws; Star (oneof ";{"); Star ws; Eol];
    Seq [Bol; Star ws; Lit "else"; Star ws; Eol];
    Seq [Bol; Star ws; Lit "++"; Star ws; Eol];
    Seq [Bol; Star ws; Lit "--"; Star ws; Eol] ].

Definition call_re : regex :=
  Seq [Plus word; Star ws; Lit "("; Star (noneof ")"); Lit ")"].

Definition meaningful_patterns : list regex :=
  [ call_re;
    Seq [Lit "class"; Plus ws; Plus word];
    Seq [Lit "struct"; Plus ws; Plus word];
    Seq [Plus word; Star ws; Lit "="; Star ws; Plus word];
    Seq [Lit "if"; Star ws; Lit "("];
    Seq [Lit "for"; Star ws; Lit "("];
    Seq [Lit "while"; Star ws; Lit "("];
    Seq [Lit "return"; Plus ws];
    Seq [Lit "#include"; Star ws; Cls (cup (chr "<") (chr dquote))];
    Seq [Lit "using"; Plus ws; Lit "namespace"];
    Lit "public:"; Lit "private:"; Lit "protected:";
    Seq [Plus word; Lit "::"; Plus word] ].

Definition decl_keyword_re : regex :=
  Seq [WordB;
       Any_of (map Lit (map lit ["int"; "double"; "float"; "char"; "bool"; "void";
                                  "const"; "static"; "virtual"; "inline"]));
       WordB].

Definition tb_re : regex := Seq [WordB; Lit "TB"; Plus upper_AZ; WordB].

Definition is_meaningful_code_completion (middle prefix : str) : bool :=
  if negb (truthy middle) || negb (truthy (strip middle)) then false else
  let middle_stripped := strip middle in
  if (len middle_stripped <? 5)%nat then false else
  if found (re_match (Seq [Bol; Plus punct; Eol]) middle_stripped) then false else
  if found (re_match (Seq [Bol; Plus (cup ws (chr "}")); Eol]) middle_stripped)
     || str_eqb middle_stripped "return;" then false else
  if matches_any meaningless_patterns middle_stripped then false else
  if startswith middle_stripped "#"
     && negb (any_in (map lit ["#include"; "#define"; "#ifndef"; "#ifdef"]) middle_stripped)
  then false else
  let lines := split_nl middle in
  let non_comment_lines :=
    List.filter (fun l => truthy (strip l) && negb (startswith (strip l) "//")
                          && negb (startswith (strip l) "/*")
                          && negb (startswith (strip l) "*")) lines in
  if negb (truthy non_comment_lines) then false else
  if found (re_match (Seq [Bol; Star ws; Lit "namespace"; Plus ws; Plus word; Star ws; Eol])
                     middle_stripped) then false else
  if searches_any meaningful_patterns middle_stripped then true else
  if found (re_search decl_keyword_re middle_stripped) then true else
  let cpp_keywords := map lit
    ["const"; "static"; "virtual"; "override"; "public"; "private"; "protected";
     "class"; "struct"; "enum"; "typedef"; "template"; "typename"; "namespace"] in
  if any_in cpp_keywords middle_stripped then true else
  if found (re_search tb_re middle_stripped) || contains "tbricks::" middle_stripped
  then true else
  false.

(** The rules of [logical_continuations]: a pattern for the last prefix
    line and a check of the middle. *)
Definition logical_continuations : list (regex * (str -> bool)) :=
  [ (Seq [Lit "#include"; Star ws; Cls (cup (chr "<") (chr dquote))],
     fun m => contains "#include" m || contains "namespace" m || contains "using" m);
    (Seq [Lit "namespace"; Plus ws; Plus word],
     fun m => contains "{" m
              || any_in (map lit ["class"; "struct"; "enum"; "void"; "int"]) m);
    (Seq [Alt (Lit "class") (Lit "struct"); Plus ws; Plus word],
     fun m => contains "{" m || contains ":" m || contains "public" m
              || contains "private" m);
    (Seq [Plus word; Star ws; Lit "("; Star (noneof ")"); Lit ")"; Star ws;
          Opt (Lit "const"); Star ws; Eol],
     fun m => contains "{" m
              || any_in (map lit ["return"; "if"; "for"; "while"]) m);
    (Seq [Any_of [Lit "public"; Lit "private"; Lit "protected"]; Star ws; Lit ":"],
     fun m => any_in (map lit ["void"; "int"; "double"; "virtual"; "static"; "const"]) m) ].

(** The [for] loop over the rules, and the [return True] after it. *)
Fixpoint flow_loop (rules : list (regex * (str -> bool)))
    (last_prefix_line middle_stripped : str) : bool :=
  match rules with
  | [] => true
  | (pattern, check_func) :: rest =>
      if found (re_search pattern last_prefix_line) then
        if check_func middle_stripped then true
        else flow_loop rest last_prefix_line middle_stripped
      else flow_loop rest last_prefix_line middle_stripped
  end.

Definition has_logical_context_flow (prefix middle suffix : str) : bool :=
  let prefix_lines := split_nl (strip prefix) in
  if negb (truthy prefix_lines) then false else
  let last_prefix_line := strip (List.last prefix_lines []) in
  let middle_stripped := strip middle in
  flow_loop logical_continuations last_prefix_line middle_stripped.

(** The first line with a non-empty stripped form, stripped. *)
Fixpoint first_meaningful (lines : list str) : option str :=
  match lines with
  | [] => None
  | line :: rest =>
      let stripped := strip line in
      if truthy stripped then Some stripped else first_meaningful rest
  end.

Definition incomplete_control_patterns : list regex :=
  [ Seq [Bol; Lit "if"; Star ws; Lit "("];
    Seq [Bol; Lit "else"; Star ws; Eol];
    Seq [Bol; Lit "else"; Star ws; Lit "if"; Star ws; Lit "("];
    Seq [Bol; Lit "for"; Star ws; Lit "("];
    Seq [Bol; Lit "while"; Star ws; Lit "("];
    Seq [Bol; Lit "switch"; Star ws; Lit "("];
    Seq [Bol; Lit "catch"; Star ws; Lit "("];
    Seq [Bol; Lit "try"; Star ws; Eol];
    Seq [Bol; Lit "return"; Star ws; Star (noneof ";"); Eol] ].

Definition signature_re : regex :=
  Seq [Bol; Plus (cup word (oneof ":<>~")); Star dot; Plus word; Star ws;
       Lit "("; Star (noneof ")"); Lit ")"].

Definition variable_decl_re : regex :=
  Seq [Bol; Opt (Seq [Lit "const"; Plus ws]); Opt (Seq [Lit "static"; Plus ws]);
       Opt (Seq [Lit "virtual"; Plus ws]); Plus (cup word (oneof ":<>")); Plus ws;
       Plus word; Star ws; Cls (oneof "=;")].

Definition meaningful_complete_patterns : list regex :=
  [ Seq [Bol; Lit "#"; Plus word];
    Seq [Bol; Plus word; Plus ws; Plus word; Star dot; Cls (oneof ";{"); Eol];
    Seq [Bol; Lit "typedef"; Plus ws];
    Seq [Bol; Lit "template"; Star ws; Lit "<"];
    Seq [Bol; Plus word; Lit "::"; Plus word] ].

Definition starts_with_complete_code_line (prefix : str) : bool :=
  if negb (truthy prefix) || negb (truthy (strip prefix)) then false else
  let lines := split_nl prefix in
  match first_meaningful lines with
  | None => false
  | Some first_line =>
      let original_first_line := match lines with l :: _ => l | [] => [] end in
      let leading_spaces := (len original_first_line - len (lstrip original_first_line))%nat in
      if (4 <? leading_spaces)%nat then false else
      if matches_any incomplete_control_patterns first_line then false else
      if found (re_match (Seq [Bol; Star punct; Eol]) first_line) then false else
      if found (re_match (Seq [Bol; Plus word; Eol]) first_line) then false else
      if startswith first_line "#include"
         && (endswith first_line (lit ".h" ++ [dquote])
             || endswith first_line (lit ".hpp" ++ [dquote])
             || endswith first_line ">" || contains [dquote] first_line)
      then true else
      if startswith first_line "#pragma" then true else
      if startswith first_line "#ifndef" || startswith first_line "#ifdef"
         || startswith first_line "#define" then true else
      if startswith first_line "namespace " || startswith first_line "using " then true else
      if startswith first_line "class " || startswith first_line "struct "
         || startswith first_line "enum " then true else
      if found (re_match signature_re first_line) then true else
      if found (re_match (Seq [Bol; Plus (cup upper_AZ (chr "_")); Lit "("]) first_line)
         || startswith first_line "auto " || startswith first_line "const "
         || startswith first_line "static " then false else
      if contains "::" first_line && contains "(" first_line
         && negb (startswith first_line "#") then false else
      if found (re_match variable_decl_re first_line) then false else
      if existsb (str_eqb (rstrip_chars first_line ":"))
                 (map lit ["public"; "private"; "protected"]) then false else
      if matches_any meaningful_complete_patterns first_line then true else
      false
  end.

Definition calculate_quality_score (parts : gmap string str) : float :=
  let prefix := get parts "prefix" in
  let middle := get parts "middle" in
  let suffix := get parts "suffix" in
  let score := 0.0%float in
  if negb (starts_with_complete_code_line prefix) then 0.0%float else
  let score := if is_meaningful_code_completion middle prefix
               then (score + 0.4)%float else score in
  let score := if has_logical_context_flow prefix middle suffix
               then (score + 0.2)%float else score in
  let middle_len := len (strip middle) in
  let score :=
    if (10 <=? middle_len)%nat && (middle_len <=? 200)%nat then (score + 0.2)%float
    else if (5 <=? middle_len)%nat && (middle_len <=? 300)%nat then (score + 0.1)%float
    else score in
  let score := if contains "tbricks" (lower middle) || found (re_search tb_re middle)
               then (score + 0.1)%float else score in
  let meaningful_constructs := map lit
    ["class"; "struct"; "namespace"; "public:"; "private:"; "virtual"; "const"] in
  let score := if any_in meaningful_constructs middle
               then (score + 0.1)%float else score in
  py_min score 1.0%float.

(** One record of [filter_quality_fim_tasks]: [Some] of the record written
    to the output, [None] for a rejection.  A [content] that is not a string
    makes [re.search] raise; the [except Exception] counts a rejection. *)
Definition filter_record (quality_threshold : float) (task : record) : option record :=
  match get_content task with
  | JStr content =>
      let parts := extract_fim_parts content in
      if negb (forallb (fun key => bool_decide (is_Some (parts !! key))) ["prefix"; "middle"]%string)
      then None
      else
        let quality_score := calculate_quality_score parts in
        if ge quality_score quality_threshold then
          let task := <[ "quality_score"%string := JFloat quality_score ]> task in
          let task := <[ "quality_phase"%string := JStr "phase1_context_quality" ]> task in
          Some task
        else None
  | _ => None
  end.

End FilterQualityFimTasks.

(** ** apply_middle_content_filter.py (Phase 2) *)

Module ApplyMiddleContentFilter.

#[local] Set Warnings "-inexact-float".

Definition fim_middle_re : regex :=
  Seq [Lit "<fim_middle>"; Grp (Lazy any); Alt (Lit "<") Eol].

(** The argument is the value of [content]; anything but a string makes
    [re.search] raise, and the [except] returns the empty string. *)
Definition extract_fim_middle (content : jval) : str :=
  match content with
  | JStr content =>
      match re_search fim_middle_re content with
      | Some m => strip (group1 m)
      | None => []
      end
  | _ => []
  end.

Definition ends_problematic (content : str) : bool :=
  endswith content "," || endswith content "::" || endswith content "->"
  || endswith content "." || endswith content "(".

Definition meaningful_patterns : list regex :=
  [ Seq [Plus word; Star ws; Lit "("; Star (noneof ")"); Lit ")"];
    Seq [Plus word; Star ws; Lit "="; Star ws];
    Seq [Lit "return"; Plus ws];
    Seq [Lit "if"; Star ws; Lit "("];
    Seq [Lit "for"; Star ws; Lit "("];
    Seq [Lit "while"; Star ws; Lit "("] ].

Definition symbols : cls := cup (oneof "{}()[];,") ws.
Definition pure_symbols_re : regex := Seq [Bol; Star symbols; Eol].

Definition access_specifier_re : regex :=
  Seq [Bol; Star ws; Any_of [Lit "public"; Lit "private"; Lit "protected"];
       Star ws; Lit ":"; Star ws; Eol].

Definition calculate_middle_quality_score (middle_content : str) : float :=
  if negb (truthy middle_content) then 0.0%float else
  let content := strip middle_content in
  let score := 0.6%float in
  let length := len content in
  let score :=
    if (10 <=? length)%nat && (length <=? 100)%nat then (score + 0.2)%float
    else if (5 <=? length)%nat && (length <=? 200)%nat then (score + 0.1)%float
    else score in
  let score := if negb (ends_problematic content) then (score + 0.1)%float else score in
  let score :=
    if existsb (fun pattern => found (re_search pattern content)) meaningful_patterns
    then (score + 0.05)%float else score in
  let score := if found (re_match pure_symbols_re content)
               then (score - 0.3)%float else score in
  py_min (py_max score 0.0%float) 1.0%float.

Definition should_reject_middle (middle_content : str) : bool * str :=
  if negb (truthy middle_content) then (true, lit "empty") else
  let content := strip middle_content in
  if endswith content "," then (true, lit "incomplete_comma") else
  if found (re_match access_specifier_re content)
  then (true, lit "standalone_access_specifier") else
  if (len content <=? 2)%nat then (true, lit "too_short") else
  if found (re_match pure_symbols_re content) then (true, lit "pure_symbols") else
  if (endswith content "::" || endswith content "->" || endswith content "."
      || endswith content "(") && (len content <? 15)%nat
  then (true, lit "incomplete_scope") else
  (false, lit "acceptable").

(** One record of [filter_dataset]. *)
Definition filter_record (data : record) : option record :=
  let content := get_content data in
  let middle := extract_fim_middle content in
  let '(should_reject, reason) := should_reject_middle middle in
  if should_reject then None
  else
    let middle_quality_score := calculate_middle_quality_score middle in
    let data := <[ "quality_phase2"%string := JStr "passed_middle_content_filter" ]> data in
    let data := <[ "quality_middle_reason"%string := JStr reason ]> data in
    let data := <[ "quality_middle_score"%string := JFloat middle_quality_score ]> data in
    Some data.

End ApplyMiddleContentFilter.

(** ** pipeline/apply_phase3b_improved_filter.py (Phase 3) *)

Module ApplyPhase3bImprovedFilter.

#[local] Set Warnings "-inexact-float".

Definition fim_prefix_re : regex :=
  Seq [Lit "<fim_prefix>"; Grp (Lazy any); Lit "<fim_suffix>"].
Definition fim_middle_re : regex :=
  Seq [Lit "<fim_middle>"; Grp (Lazy any); Alt (Lit "<") Eol].

Definition extract_fim_components (content : jval) : str * str :=
  match content with
  | JStr content =>
      let prefix := match re_search fim_prefix_re content with
                    | Some m => strip (group1 m) | None => [] end in
      let middle := match re_search fim_middle_re content with
                    | Some m => strip (group1 m) | None => [] end in
      (prefix, middle)
  | _ => ([], [])
  end.

(** [middle_len / prefix_len if prefix_len > 0 else float('inf')]. *)
Definition ratio_of (middle_len prefix_len : nat) : float :=
  if (0 <? prefix_len)%nat then true_div middle_len prefix_len else infinity.

Definition calculate_length_quality_score (prefix middle : str) : float :=
  if negb (truthy prefix) || negb (truthy middle) then 0.0%float else
  let prefix_len := len prefix in
  let middle_len := len middle in
  let ratio := ratio_of middle_len prefix_len in
  let score := 0.5%float in
  let score :=
    if (200 <=? prefix_len)%nat && (prefix_len <=? 1000)%nat then (score + 0.2)%float
    else if (100 <=? prefix_len)%nat && (prefix_len <=? 2000)%nat then (score + 0.1)%float
    else if (prefix_len <? 50)%nat || (5000 <? prefix_len)%nat then (score - 0.2)%float
    else score in
  let score :=
    if (20 <=? middle_len)%nat && (middle_len <=? 150)%nat then (score + 0.2)%float
    else if (10 <=? middle_len)%nat && (middle_len <=? 300)%nat then (score + 0.1)%float
    else if (middle_len <? 8)%nat || (400 <? middle_len)%nat then (score - 0.2)%float
    else score in
  let '(optimal_ratio, max_good_ratio) :=
    if (prefix_len <=? 150)%nat then (0.4%float, 0.8%float)
    else if (prefix_len <=? 300)%nat then (0.3%float, 0.6%float)
    else if (prefix_len <=? 500)%nat then (0.25%float, 0.4%float)
    else (0.2%float, 0.3%float) in
  let score :=
    if le ratio optimal_ratio then (score + 0.1)%float
    else if le ratio max_good_ratio then (score + 0.05)%float
    else (score - 0.1)%float in
  py_min (py_max score 0.0%float) 1.0%float.

(** The ceiling of the ratio for a prefix length. *)
Definition max_ratio_of (prefix_len : nat) : float :=
  if (prefix_len <=? 150)%nat then 1.2%float
  else if (prefix_len <=? 300)%nat then 0.8%float
  else if (prefix_len <=? 500)%nat then 0.6%float
  else 0.4%float.

Definition should_reject_improved (prefix middle : str) : bool * str :=
  if negb (truthy prefix) || negb (truthy middle) then (true, lit "missing_components") else
  let prefix_len := len prefix in
  let middle_len := len middle in
  let ratio := ratio_of middle_len prefix_len in
  if (prefix_len <? 50)%nat then (true, lit "prefix_too_short") else
  if (5000 <? prefix_len)%nat then (true, lit "prefix_too_long") else
  if (middle_len <? 8)%nat then (true, lit "middle_too_short") else
  if (400 <? middle_len)%nat then (true, lit "middle_too_long") else
  let max_ratio := max_ratio_of prefix_len in
  if gt ratio max_ratio
  then (true, lit "ratio_too_large_" ++ str_of_int (int (max_ratio * 100)%float)) else
  if lt ratio 0.01%float then (true, lit "ratio_too_small") else
  if truthy (strip middle) && isalnum (List.last (strip middle) "000"%char)
     && negb (contains " " (strip middle)) && (len (strip middle) <? 15)%nat
  then (true, lit "incomplete_word") else
  if (prefix_len <? 80)%nat && (200 <? middle_len)%nat
  then (true, lit "short_prefix_very_long_middle") else
  let middle_stripped := strip middle in
  if lt (of_len (len middle_stripped)) (of_len (len middle) * 0.3)%float
  then (true, lit "mostly_whitespace") else
  (false, lit "acceptable").

(** One record of [filter_phase3b]. *)
Definition filter_record (data : record) : option record :=
  let content := get_content data in
  let '(prefix, middle) := extract_fim_components content in
  let '(should_reject, reason) := should_reject_improved prefix middle in
  if should_reject then None
  else
    let length_quality_score := calculate_length_quality_score prefix middle in
    let data := <[ "quality_phase3b"%string := JStr "passed_length_based_filter" ]> data in
    let data := <[ "quality_length_reason"%string := JStr reason ]> data in
    let data := <[ "quality_length_score"%string := JFloat length_quality_score ]> data in
    let data := <[ "quality_prefix_length"%string := JInt (Z.of_nat (len prefix)) ]> data in
    let data := <[ "quality_middle_length"%string := JInt (Z.of_nat (len middle)) ]> data in
    let data := <[ "quality_ratio"%string :=
                     JFloat (if (0 <? len prefix)%nat
                             then true_div (len middle) (len prefix) else 0.0%float) ]> data in
    Some data.

End ApplyPhase3bImprovedFilter.

(** ** pipeline/calculate_comprehensive_quality_scores.py (Composite Scorer) *)

Module CalculateComprehensiveQualityScores.

#[local] Set Warnings "-inexact-float".

Definition fim_prefix_re : regex :=
  Seq [Lit "<fim_prefix>"; Grp (Lazy any); Lit "<fim_suffix>"].
Definition fim_suffix_re : regex :=
  Seq [Lit "<fim_suffix>"; Grp (Lazy any); Lit "<fim_middle>"].
Definition fim_middle_re : regex :=
  Seq [Lit "<fim_middle>"; Grp (Lazy any); Eol].

Definition set_group (key : string) (m : option match_obj)
    (parts : gmap string str) : gmap string str :=
  match m with
  | Some mo => <[ key := group1 mo ]> parts
  | None => parts
  end.

Definition extract_fim_parts (content : str) : gmap string str :=
  let parts := ∅ in
  let parts := set_group "prefix" (re_search fim_prefix_re content) parts in
  let parts := set_group "suffix" (re_search fim_suffix_re content) parts in
  let parts := set_group "middle" (re_search fim_middle_re content) parts in
  parts.

Definition get (parts : gmap string str) (key : string) : str :=
  default [] (parts !! key).

Definition matches_any (rs : list regex) (s : str) : bool :=
  existsb (fun r => found (re_match r s)) rs.
Definition searches_any (rs : list regex) (s : str) : bool :=
  existsb (fun r => found (re_search r s)) rs.

Definition punct : cls := cup ws (oneof "{}[]();,.").

Definition meaningless_patterns : list regex :=
  [ Seq [Bol; Plus (oneof ";,"); Eol];
    Seq [Bol; Star ws; Lit ")"; Star ws; Star (oneof ";{"); Star ws; Eol];
    Seq [Bol; Star ws; Lit "else"; Star ws; Eol];
    Seq [Bol; Star ws; Lit "++"; Star ws; Eol];
    Seq [Bol; Star ws; Lit "--"; Star ws; Eol] ].

Definition meaningful_patterns : list regex :=
  [ Seq [Plus word; Star ws; Lit "("; Star (noneof ")"); Lit ")"];
    Seq [Lit "class"; Plus ws; Plus word];
    Seq [Lit "struct"; Plus ws; Plus word];
    Seq [Plus word; Star ws; Lit "="; Star ws; Plus word];
    Seq [Lit "if"; Star ws; Lit "("];
    Seq [Lit "for"; Star ws; Lit "("];
    Seq [Lit "while"; Star ws; Lit "("];
    Seq [Lit "return"; Plus ws];
    Seq [Lit "#include"; Star ws; Cls (cup (chr "<") (chr dquote))];
    Seq [Lit "using"; Plus ws; Lit "namespace"];
    Lit "public:"; Lit "private:"; Lit "protected:";
    Seq [Plus word; Lit "::"; Plus word] ].

Definition is_meaningful_code_completion (middle prefix : str) : bool :=
  if negb (truthy middle) || negb (truthy (strip middle)) then false else
  let middle_stripped := strip middle in
  if (len middle_stripped <? 5)%nat then false else
  if found (re_match (Seq [Bol; Plus punct; Eol]) middle_stripped) then false else
  if found (re_match (Seq [Bol; Plus (cup ws (chr "}")); Eol]) middle_stripped)
     || str_eqb middle_stripped "return;" then false else
  if matches_any meaningless_patterns middle_stripped then false else
  if searches_any meaningful_patterns middle_stripped then true else
  false.

Definition logical_continuations : list (regex * (str -> bool)) :=
  [ (Seq [Lit "#include"; Star ws; Cls (cup (chr "<") (chr dquote))],
     fun m => contains "#include" m || contains "namespace" m || contains "using" m);
    (Seq [Lit "namespace"; Plus ws; Plus word],
     fun m => contains "{" m
              || any_in (map lit ["class"; "struct"; "enum"; "void"; "int"]) m);
    (Seq [Alt (Lit "class") (Lit "struct"); Plus ws; Plus word],
     fun m => contains "{" m || contains ":" m || contains "public" m
              || contains "private" m);
    (Seq [Plus word; Star ws; Lit "("; Star (noneof ")"); Lit ")"; Star ws;
          Opt (Lit "const"); Star ws; Eol],
     fun m => contains "{" m
              || any_in (map lit ["return"; "if"; "for"; "while"]) m);
    (Seq [Any_of [Lit "public"; Lit "private"; Lit "protected"]; Star ws; Lit ":"],
     fun m => any_in (map lit ["void"; "int"; "double"; "virtual"; "static"; "const"]) m) ].

Fixpoint flow_loop (rules : list (regex * (str -> bool)))
    (last_prefix_line middle_stripped : str) : bool :=
  match rules with
  | [] => true
  | (pattern, check_func) :: rest =>
      if found (re_search pattern last_prefix_line) then
        if check_func middle_stripped then true
        else flow_loop rest last_prefix_line middle_stripped
      else flow_loop rest last_prefix_line middle_stripped
  end.

Definition has_logical_context_flow (prefix middle suffix : str) : bool :=
  let prefix_lines := split_nl (strip prefix) in
  if negb (truthy prefix_lines) then false else
  let last_prefix_line := strip (List.last prefix_lines []) in
  let middle_stripped := strip middle in
  flow_loop logical_continuations last_prefix_line middle_stripped.

Fixpoint first_meaningful (lines : list str) : option str :=
  match lines with
  | [] => None
  | line :: rest =>
      let stripped := strip line in
      if truthy stripped then Some stripped else first_meaningful rest
  end.

Definition meaningful_starts : list regex :=
  [ Seq [Bol; Lit "#include"]; Seq [Bol; Lit "#pragma"]; Seq [Bol; Lit "#ifndef"];
    Seq [Bol; Lit "#ifdef"]; Seq [Bol; Lit "#define"];
    Seq [Bol; Lit "namespace"; Plus ws]; Seq [Bol; Lit "using"; Plus ws];
    Seq [Bol; Lit "class"; Plus ws]; Seq [Bol; Lit "struct"; Plus ws];
    Seq [Bol; Lit "enum"; Plus ws] ].

Definition signature_re : regex :=
  Seq [Bol; Plus (cup word (oneof ":<>~")); Star dot; Plus word; Star ws;
       Lit "("; Star (noneof ")"); Lit ")"].

Definition starts_with_complete_code_line (prefix : str) : bool :=
  if negb (truthy prefix) || negb (truthy (strip prefix)) then false else
  let lines := split_nl prefix in
  match first_meaningful lines with
  | None => false
  | Some first_line =>
      let original_first_line := match lines with l :: _ => l | [] => [] end in
      let leading_spaces := (len original_first_line - len (lstrip original_first_line))%nat in
      if (4 <? leading_spaces)%nat then false else
      if matches_any meaningful_starts first_line then true else
      if found (re_match signature_re first_line) then true else
      false
  end.

Definition tb_re : regex := Seq [WordB; Lit "TB"; Plus upper_AZ; WordB].

Definition calculate_phase1_score (parts : gmap string str) : float :=
  let prefix := get parts "prefix" in
  let middle := get parts "middle" in
  let suffix := get parts "suffix" in
  if negb (starts_with_complete_code_line prefix) then 0.0%float else
  let score := 0.0%float in
  let score := if is_meaningful_code_completion middle prefix
               then (score + 0.4)%float else score in
  let score := if has_logical_context_flow prefix middle suffix
               then (score + 0.2)%float else score in
  let middle_len := len (strip middle) in
  let score :=
    if (10 <=? middle_len)%nat && (middle_len <=? 200)%nat then (score + 0.2)%float
    else if (5 <=? middle_len)%nat && (middle_len <=? 300)%nat then (score + 0.1)%float
    else score in
  let score := if contains "tbricks" (lower middle) || found (re_search tb_re middle)
               then (score + 0.1)%float else score in
  let meaningful_constructs := map lit
    ["class"; "struct"; "namespace"; "public:"; "private:"; "virtual"; "const"] in
  let score := if any_in meaningful_constructs middle
               then (score + 0.1)%float else score in
  py_min score 1.0%float.

Definition ends_problematic (content : str) : bool :=
  endswith content "," || endswith content "::" || endswith content "->"
  || endswith content "." || endswith content "(".

Definition phase2_patterns : list regex :=
  [ Seq [Plus word; Star ws; Lit "("; Star (noneof ")"); Lit ")"];
    Seq [Plus word; Star ws; Lit "="; Star ws];
    Seq [Lit "return"; Plus ws];
    Seq [Lit "if"; Star ws; Lit "("];
    Seq [Lit "for"; Star ws; Lit "("];
    Seq [Lit "while"; Star ws; Lit "("] ].

Definition pure_symbols_re : regex :=
  Seq [Bol; Star (cup (oneof "{}()[];,") ws); Eol].

Definition calculate_phase2_score (middle : str) : float :=
  if negb (truthy middle) then 0.0%float else
  let content := strip middle in
  let score := 0.6%float in
  let length := len content in
  let score :=
    if (10 <=? length)%nat && (length <=? 100)%nat then (score + 0.2)%float
    else if (5 <=? length)%nat && (length <=? 200)%nat then (score + 0.1)%float
    else score in
  let score := if negb (ends_problematic content) then (score + 0.1)%float else score in
  let score :=
    if existsb (fun pattern => found (re_search pattern content)) phase2_patterns
    then (score + 0.05)%float else score in
  let score := if found (re_match pure_symbols_re content)
               then (score - 0.3)%float else score in
  py_min (py_max score 0.0%float) 1.0%float.

Definition ratio_of (middle_len prefix_len : nat) : float :=
  if (0 <? prefix_len)%nat then true_div middle_len prefix_len else infinity.

Definition calculate_phase3_score (prefix middle : str) : float :=
  if negb (truthy prefix) || negb (truthy middle) then 0.0%float else
  let prefix_len := len prefix in
  let middle_len := len middle in
  let ratio := ratio_of middle_len prefix_len in
  let score := 0.5%float in
  let score :=
    if (200 <=? prefix_len)%nat && (prefix_len <=? 1000)%nat then (score + 0.2)%float
    else if (100 <=? prefix_len)%nat && (prefix_len <=? 2000)%nat then (score + 0.1)%float
    else if (prefix_len <? 50)%nat || (5000 <? prefix_len)%nat then (score - 0.2)%float
    else score in
  let score :=
    if (20 <=? middle_len)%nat && (middle_len <=? 150)%nat then (score + 0.2)%float
    else if (10 <=? middle_len)%nat && (middle_len <=? 300)%nat then (score + 0.1)%float
    else if (middle_len <? 8)%nat || (400 <? middle_len)%nat then (score - 0.2)%float
    else score in
  let '(optimal_ratio, max_good_ratio) :=
    if (prefix_len <=? 150)%nat then (0.4%float, 0.8%float)
    else if (prefix_len <=? 300)%nat then (0.3%float, 0.6%float)
    else if (prefix_len <=? 500)%nat then (0.25%float, 0.4%float)
    else (0.2%float, 0.3%float) in
  let score :=
    if le ratio optimal_ratio then (score + 0.1)%float
    else if le ratio max_good_ratio then (score + 0.05)%float
    else (score - 0.1)%float in
  py_min (py_max score 0.0%float) 1.0%float.

Definition calculate_composite_score (phase1_score phase2_score phase3_score : float) : float :=
  let composite :=
    (0.5 * phase1_score + 0.3 * phase2_score + 0.2 * phase3_score)%float in
  py_min (py_max composite 0.0%float) 1.0%float.

Definition quality_tier_of (composite_score : float) : str :=
  if ge composite_score 0.8%float then lit "high_quality"
  else if ge composite_score 0.6%float then lit "medium_quality"
  else if ge composite_score 0.4%float then lit "acceptable_quality"
  else lit "low_quality".

(** The four scores of one record, as the loop body computes them. *)
Record scores : Type := {
  phase1_score : float;
  phase2_score : float;
  phase3_score : float;
  composite_score : float
}.

Definition scores_of (parts : gmap string str) : scores :=
  let prefix := get parts "prefix" in
  let middle := get parts "middle" in
  let p1 := calculate_phase1_score parts in
  let p2 := calculate_phase2_score middle in
  let p3 := calculate_phase3_score prefix middle in
  {| phase1_score := p1; phase2_score := p2; phase3_score := p3;
     composite_score := calculate_composite_score p1 p2 p3 |}.

(** One record of [process_dataset_with_comprehensive_scores]: [None] when
    the record is skipped. *)
Definition process_record (data : record) : option record :=
  match get_content data with
  | JStr content =>
      let parts := extract_fim_parts content in
      if negb (forallb (fun key => bool_decide (is_Some (parts !! key))) ["prefix"; "middle"]%string)
      then None
      else
        let prefix := get parts "prefix" in
        let middle := get parts "middle" in
        let sc := scores_of parts in
        let data := <[ "quality_scores"%string :=
          JObj [ ("phase1_context_quality"%string, JFloat (phase1_score sc));
                 ("phase2_middle_quality"%string, JFloat (phase2_score sc));
                 ("phase3_length_quality"%string, JFloat (phase3_score sc));
                 ("composite_quality"%string, JFloat (composite_score sc)) ] ]> data in
        let data := <[ "quality_metrics"%string :=
          JObj [ ("prefix_length"%string, JInt (Z.of_nat (len prefix)));
                 ("middle_length"%string, JInt (Z.of_nat (len middle)));
                 ("ratio"%string,
                  JFloat (if (0 <? len prefix)%nat
                          then true_div (len middle) (len prefix) else 0.0%float));
                 ("has_complete_prefix"%string, JBool (starts_with_complete_code_line prefix));
                 ("has_meaningful_completion"%string,
                  JBool (is_meaningful_code_completion middle prefix));
                 ("has_logical_flow"%string,
                  JBool (has_logical_context_flow prefix middle (get parts "suffix"))) ] ]> data in
        let data := <[ "quality_tier"%string :=
                         JStr (quality_tier_of (composite_score sc)) ]> data in
        Some data
  | _ => None
  end.

End CalculateComprehensiveQualityScores.

(** ** Definitions the statements use *)

Module Spec.

#[local] Set Warnings "-inexact-float".

(** *** What a pattern denotes

    [denote r prev w rest]: the pattern [r] matches the text [w] when the
    character before [w] is [prev] and the subject goes on with [rest]. *)

Definition lastp (prev : option ascii) (w : str) : option ascii :=
  match last w with
  | Some c => Some c
  | None => prev
  end.

Fixpoint denote (r : regex) (prev : option ascii) (w rest : str) : Prop :=
  match r with
  | Eps => w = []
  | Cls p => exists c, w = [c] /\ p c = true
  | Cat r1 r2 =>
      exists w1 w2, w = w1 ++ w2 /\ denote r1 prev w1 (w2 ++ rest)
                    /\ denote r2 (lastp prev w1) w2 rest
  | Alt r1 r2 => denote r1 prev w rest \/ denote r2 prev w rest
  | Rep _ p => forallb p w = true
  | Bol => w = [] /\ prev = None
  | Eol => w = [] /\ at_eol rest = true
  | WordB => w = [] /\ at_wordb prev rest = true
  | Grp r1 => denote r1 prev w rest
  end.

(** *** Preprocessor directives

    A line is a directive when [#] is its first character, the whitespace
    around the line set aside; the name of the directive is the word that
    follows the [#] and any whitespace after it.  [#if], [#ifdef] and
    [#ifndef] open a conditional. *)

Inductive directive : Set := Opener | Else | Elif | Endif | Other.

(** The longest run of word characters a text starts with. *)
Fixpoint word_at (s : str) : str :=
  match s with
  | c :: s' => if word c then c :: word_at s' else []
  | [] => []
  end.

Definition directive_name (line : str) : option str :=
  match strip line with
  | c :: rest => if Ascii.eqb c "#" then Some (word_at (lstrip rest)) else None
  | [] => None
  end.

Definition opener_name (name : str) : bool :=
  str_eqb name "if" || str_eqb name "ifdef" || str_eqb name "ifndef".

Definition classify (line : str) : directive :=
  match directive_name line with
  | Some name =>
      if opener_name name then Opener
      else if str_eqb name "else" then Else
      else if str_eqb name "elif" then Elif
      else if str_eqb name "endif" then Endif
      else Other
  | None => Other
  end.

(** The number of openers on the stack after a scan that started with
    [depth] of them: an opener pushes, an [#endif] pops. *)
Fixpoint depth_after (depth : nat) (ds : list directive) : nat :=
  match ds with
  | [] => depth
  | Opener :: ds' => depth_after (S depth) ds'
  | Endif :: ds' => depth_after (pred depth) ds'
  | _ :: ds' => depth_after depth ds'
  end.

Definition closer (d : directive) : Prop := d = Else \/ d = Elif \/ d = Endif.

(** Some [#else], [#elif] or [#endif] is met while the stack is empty. *)
Definition orphaned (ds : list directive) : Prop :=
  exists pre d post, ds = pre ++ d :: post /\ closer d /\ depth_after 0 pre = 0.

(** *** Shapes of a middle, in plain terms *)





(** *** The Phase-1 score with the logical-flow bonus always added *)

Definition quality_score_with_flow_bonus (parts : gmap string str) : float :=
  let prefix := FilterQualityFimTasks.get parts "prefix" in
  let middle := FilterQualityFimTasks.get parts "middle" in
  if negb (FilterQualityFimTasks.starts_with_complete_code_line prefix) then 0.0%float else
  let score := 0.0%float in
  let score := if FilterQualityFimTasks.is_meaningful_code_completion middle prefix
               then (score + 0.4)%float else score in
  let score := (score + 0.2)%float in
  let middle_len := len (strip middle) in
  let score :=
    if (10 <=? middle_len)%nat && (middle_len <=? 200)%nat then (score + 0.2)%float
    else if (5 <=? middle_len)%nat && (middle_len <=? 300)%nat then (score + 0.1)%float
    else score in
  let score := if contains "tbricks" (lower middle)
                  || found (re_search FilterQualityFimTasks.tb_re middle)
               then (score + 0.1)%float else score in
  let score := if any_in (map lit ["class"; "struct"; "namespace"; "public:"; "private:";
                                   "virtual"; "const"]) middle
               then (score + 0.1)%float else score in
  py_min score 1.0%float.

(** The value of a key in a JSON object. *)
Fixpoint field (key : string) (fields : list (string * jval)) : option jval :=
  match fields with
  | [] => None
  | (k, v) :: rest => if String.eqb k key then Some v else field key rest
  end.

(** [0.0 <= x <= 1.0] on floats (false for a NaN). *)
Definition in_unit_interval (x : float) : Prop :=
  le 0.0%float x = true /\ le x 1.0%float = true.

End Spec.

Import Spec.

(** * Facts about strings *)

Section StringFacts.

Lemma split_nl_nonempty (s : str) : truthy (split_nl s) = true.
Proof.
  induction s as [|c s IH]; simpl; [reflexivity|].
  destruct (Ascii.eqb c nl); [reflexivity|].
  destruct (split_nl s); reflexivity.
Qed.

Lemma truthy_true {A} (l : list A) : truthy l = true <-> l <> [].
Proof. destruct l; simpl; split; congruence. Qed.

Lemma truthy_false {A} (l : list A) : truthy l = false <-> l = [].
Proof. destruct l; simpl; split; congruence. Qed.

End StringFacts.

(** * The logical-flow predicate (C10) *)

Section LogicalFlow.

Lemma flow_loop_true rules last_line m :
  FilterQualityFimTasks.flow_loop rules last_line m = true.
Proof.
  induction rules as [|[pattern check] rules IH]; simpl; [reflexivity|].
  destruct (found _); [destruct (check m)|]; auto.
Qed.

Lemma flow_loop_true' rules last_line m :
  CalculateComprehensiveQualityScores.flow_loop rules last_line m = true.
Proof.
  induction rules as [|[pattern check] rules IH]; simpl; [reflexivity|].
  destruct (found _); [destruct (check m)|]; auto.
Qed.

Lemma phase1_flow_true prefix middle suffix :
  FilterQualityFimTasks.has_logical_context_flow prefix middle suffix = true.
Proof.
  unfold FilterQualityFimTasks.has_logical_context_flow.
  rewrite split_nl_nonempty. simpl negb. cbv iota.
  apply flow_loop_true.
Qed.

Lemma composite_flow_true prefix middle suffix :
  CalculateComprehensiveQualityScores.has_logical_context_flow prefix middle suffix = true.
Proof.
  unfold CalculateComprehensiveQualityScores.has_logical_context_flow.
  rewrite split_nl_nonempty. simpl negb. cbv iota.
  apply flow_loop_true'.
Qed.

(** C10: the logical-context-flow predicate of Phase 1 and of the Composite
    Scorer is true on every (prefix, middle, suffix); the Phase-1 score is
    therefore the score with the +0.2 bonus always added once the prefix
    check passes, and the [has_logical_flow] metric of every record the
    Composite Scorer writes is [true]. *)
Theorem logical_flow_is_always_true :
  (forall prefix middle suffix,
     FilterQualityFimTasks.has_logical_context_flow prefix middle suffix = true
     /\ CalculateComprehensiveQualityScores.has_logical_context_flow prefix middle suffix = true)
  /\ (forall parts,
        FilterQualityFimTasks.calculate_quality_score parts
        = quality_score_with_flow_bonus parts)
  /\ (forall data,
        match CalculateComprehensiveQualityScores.process_record data with
        | Some data' =>
            exists fields, data' !! "quality_metrics"%string = Some (JObj fields)
                           /\ field "has_logical_flow" fields = Some (JBool true)
        | None => True
        end).
Proof.
  split; [|split].
  - intros. split; [apply phase1_flow_true | apply composite_flow_true].
  - intros parts. unfold FilterQualityFimTasks.calculate_quality_score,
      quality_score_with_flow_bonus.
    rewrite phase1_flow_true. reflexivity.
  - intros data. unfold CalculateComprehensiveQualityScores.process_record.
    destruct (get_content data); try exact I.
    destruct (negb _); [exact I|].
    cbv zeta. eexists. split.
    + rewrite lookup_insert_ne by discriminate.
      rewrite lookup_insert_eq. reflexivity.
    + simpl. rewrite composite_flow_true. reflexivity.
Qed.

End LogicalFlow.

(** * The code-line classifier and the CodeLineIndex (C1) *)

Section CodeLines.
Import ExtractNextlinePairs.

Lemma startswith_cons (s : str) (c : ascii) (p : str) :
  startswith s (c :: p) = true -> exists s', s = c :: s' /\ startswith s' p = true.
Proof.
  destruct s as [|b s]; simpl; [discriminate|].
  intros H. apply andb_true_iff in H as [Hc Hp].
  apply Ascii.eqb_eq in Hc. subst b. eauto.
Qed.

Lemma hash_not_comment (stripped : str) :
  startswith stripped "#" = true -> comment_start stripped = false.
Proof.
  intros H. apply (startswith_cons _ "#"%char []) in H as (s' & -> & _).
  reflexivity.
Qed.

Lemma hash_truthy (stripped : str) :
  startswith stripped "#" = true -> truthy stripped = true.
Proof.
  intros H. apply (startswith_cons _ "#"%char []) in H as (s' & -> & _).
  reflexivity.
Qed.

Lemma is_code_line_hash (line : str) :
  startswith (strip line) "#" = true ->
  is_code_line line = negb (template_marker line).
Proof.
  intros H. unfold is_code_line.
  rewrite (hash_truthy _ H), (hash_not_comment _ H). simpl.
  destruct (template_marker line); reflexivity.
Qed.

Lemma in_enumerate {A} (ls : list A) (a i : nat) (l : A) :
  In (i, l) (combine (seq a (length ls)) ls) <->
  (a <= i)%nat /\ ls !! (i - a)%nat = Some l.
Proof.
  revert a. induction ls as [|x ls IH]; intros a; simpl.
  - split; [tauto|]. intros [_ H]. discriminate.
  - rewrite IH. split.
    + intros [H | [Hle H]].
      * inversion H; subst. split; [lia|]. now rewrite Nat.sub_diag.
      * split; [lia|]. replace (i - a)%nat with (S (i - S a)) by lia. exact H.
    + intros [Hle H]. destruct (decide (i = a)) as [->|Hne].
      * left. rewrite Nat.sub_diag in H. simpl in H. congruence.
      * right. split; [lia|].
        replace (i - a)%nat with (S (i - S a)) in H by lia. exact H.
Qed.

(** The CodeLineIndex holds exactly the indices of the lines the
    classifier accepts. *)
Lemma in_code_indices (lines : list str) (i : nat) :
  In (Z.of_nat i) (code_indices lines) <->
  exists line, lines !! i = Some line /\ is_code_line line = true.
Proof.
  unfold code_indices. rewrite in_map_iff. split.
  - intros ([j l] & Hj & Hin). simpl in Hj. apply Nat2Z.inj in Hj. subst j.
    apply filter_In in Hin as [Hin Hc]. simpl in Hc.
    apply in_enumerate in Hin as [_ Hl]. rewrite Nat.sub_0_r in Hl. eauto.
  - intros (line & Hl & Hc). exists (i, line). split; [reflexivity|].
    apply filter_In. split; [|exact Hc].
    apply in_enumerate. split; [lia|]. now rewrite Nat.sub_0_r.
Qed.

Lemma code_indices_in_range (lines : list str) (k : Z) :
  In k (code_indices lines) -> (0 <= k < zlen lines)%Z.
Proof.
  unfold code_indices. rewrite in_map_iff.
  intros ([j l] & <- & Hin). simpl.
  apply filter_In in Hin as [Hin _].
  apply in_enumerate in Hin as [_ Hl].
  apply lookup_lt_Some in Hl. unfold zlen. lia.
Qed.

Lemma has_real_code_skips_directives (n : nat) (lines : list str) :
  Forall (fun l => startswith (strip l) "#" = true
                   /\ startswith (strip l) "#include" = false) lines ->
  has_real_code_from n lines = false.
Proof.
  induction 1 as [|l lines [Hh Hi] _ IH]; cbn [has_real_code_from]; [reflexivity|].
  cbv zeta. rewrite (hash_truthy _ Hh), (hash_not_comment _ Hh), Hh, Hi.
  cbn [negb andb]. destruct (found _); exact IH.
Qed.

(** The line [#define MAX 10]. *)
Definition define_line : str := lit "#define MAX 10" ++ [nl].

(** C1, counterexample: a [#define] line is a non-include preprocessor
    line, the classifier accepts it, and its index is in the CodeLineIndex. *)
Lemma define_line_is_indexed :
  startswith (strip define_line) "#" = true
  /\ startswith (strip define_line) "#include" = false
  /\ is_code_line define_line = true
  /\ code_indices [define_line] = [0%Z].
Proof. vm_compute. repeat split; reflexivity. Qed.

(** C1, as amended: the Code-Line Classifier does not look at preprocessor
    directives: it accepts every line whose stripped form begins with [#]
    (include or not) unless the line holds an editor-template marker, so the
    index of such a line is in the CodeLineIndex; the exclusion of
    non-include preprocessor lines belongs to the stricter [has_real_code]
    variant alone, which finds no real code in a window made of such lines. *)
Theorem classifier_keeps_preprocessor_lines :
  (forall line,
     startswith (strip line) "#" = true ->
     is_code_line line = negb (template_marker line))
  /\ (forall lines i line,
        lines !! i = Some line ->
        startswith (strip line) "#" = true ->
        template_marker line = false ->
        In (Z.of_nat i) (code_indices lines))
  /\ (forall lines,
        Forall (fun l => startswith (strip l) "#" = true
                         /\ startswith (strip l) "#include" = false) lines ->
        has_real_code lines = false).
Proof.
  split; [|split].
  - exact is_code_line_hash.
  - intros lines i line Hl Hh Ht. apply in_code_indices.
    exists line. split; [exact Hl|].
    rewrite (is_code_line_hash _ Hh), Ht. reflexivity.
  - intros lines H. apply has_real_code_skips_directives. exact H.
Qed.

Lemma classifier_keeps_preprocessor_lines_witness :
  is_code_line define_line = negb (template_marker define_line)
  /\ In (Z.of_nat 0) (code_indices [define_line])
  /\ has_real_code [define_line] = false.
Proof.
  destruct classifier_keeps_preprocessor_lines as (H1 & H2 & H3).
  split; [|split].
  - apply H1. reflexivity.
  - apply (H2 [define_line] 0%nat define_line); reflexivity.
  - apply H3. repeat constructor.
Defined.

End CodeLines.

(** * The matcher finds a match exactly when the pattern denotes one *)

Section MatcherFacts.
Context {R : Type}.

Lemma lastp_cons prev c w : lastp prev (c :: w) = lastp (Some c) w.
Proof.
  unfold lastp. destruct w as [|d w]; [reflexivity|].
  change (last (c :: d :: w)) with (last (d :: w)).
  destruct (last (d :: w)) eqn:E; [reflexivity|].
  apply last_None in E. discriminate.
Qed.

Lemma lastp_app prev w1 w2 : lastp prev (w1 ++ w2) = lastp (lastp prev w1) w2.
Proof.
  revert prev. induction w1 as [|c w1 IH]; intros prev; [reflexivity|].
  simpl app. rewrite !lastp_cons. apply IH.
Qed.

Lemma is_Some_or_else (o o' : option R) :
  is_Some (match o with Some m => Some m | None => o' end) <-> is_Some o \/ is_Some o'.
Proof.
  destruct o; split; eauto.
  - intros [H | H]; [destruct H; discriminate | exact H].
Qed.

Lemma rep_greedy_spec (p : cls) prev s (k : option ascii -> str -> option R) :
  is_Some (rep_greedy p prev s k) <->
  exists w rest, s = w ++ rest /\ forallb p w = true /\ is_Some (k (lastp prev w) rest).
Proof.
  revert prev. induction s as [|c s IH]; intros prev; cbn [rep_greedy].
  - split.
    + intros H. exists [], []. auto.
    + intros (w & rest & Hs & _ & Hk).
      symmetry in Hs. apply app_eq_nil in Hs as [-> ->]. exact Hk.
  - destruct (p c) eqn:Hp.
    + rewrite is_Some_or_else, IH. split.
      * intros [(w & rest & -> & Hw & Hk) | Hk].
        -- exists (c :: w), rest. rewrite lastp_cons. simpl. rewrite Hp. auto.
        -- exists [], (c :: s). auto.
      * intros (w & rest & Hs & Hw & Hk). destruct w as [|d w].
        -- right. simpl in Hs. subst rest. exact Hk.
        -- left. simpl in Hs. inversion Hs; subst. simpl in Hw.
           apply andb_true_iff in Hw as [_ Hw]. rewrite lastp_cons in Hk. eauto.
    + split.
      * intros Hk. exists [], (c :: s). auto.
      * intros (w & rest & Hs & Hw & Hk). destruct w as [|d w].
        -- simpl in Hs. subst rest. exact Hk.
        -- simpl in Hs. inversion Hs; subst. simpl in Hw. rewrite Hp in Hw. discriminate.
Qed.

Lemma rep_lazy_spec (p : cls) prev s (k : option ascii -> str -> option R) :
  is_Some (rep_lazy p prev s k) <->
  exists w rest, s = w ++ rest /\ forallb p w = true /\ is_Some (k (lastp prev w) rest).
Proof.
  revert prev. induction s as [|c s IH]; intros prev; cbn [rep_lazy].
  - rewrite is_Some_or_else. split.
    + intros [H | H]; [|destruct H; discriminate]. exists [], []. auto.
    + intros (w & rest & Hs & _ & Hk).
      symmetry in Hs. apply app_eq_nil in Hs as [-> ->]. left. exact Hk.
  - rewrite is_Some_or_else. destruct (p c) eqn:Hp.
    + rewrite IH. split.
      * intros [Hk | (w & rest & -> & Hw & Hk)].
        -- exists [], (c :: s). auto.
        -- exists (c :: w), rest. rewrite lastp_cons. simpl. rewrite Hp. auto.
      * intros (w & rest & Hs & Hw & Hk). destruct w as [|d w].
        -- left. simpl in Hs. subst rest. exact Hk.
        -- right. simpl in Hs. inversion Hs; subst. simpl in Hw.
           apply andb_true_iff in Hw as [_ Hw]. rewrite lastp_cons in Hk. eauto.
    + split.
      * intros [Hk | H]; [|destruct H; discriminate]. exists [], (c :: s). auto.
      * intros (w & rest & Hs & Hw & Hk). destruct w as [|d w].
        -- left. simpl in Hs. subst rest. exact Hk.
        -- simpl in Hs. inversion Hs; subst. simpl in Hw. rewrite Hp in Hw. discriminate.
Qed.

(** A continuation whose success does not depend on the captured text. *)
Definition cap_blind (k : @cont R) : Prop :=
  forall p s c c', is_Some (k p s c) <-> is_Some (k p s c').

Lemma exec_spec (r : regex) :
  forall prev s cap (k : @cont R), cap_blind k ->
    (is_Some (exec r prev s cap k) <->
     exists w rest, s = w ++ rest /\ denote r prev w rest
                    /\ is_Some (k (lastp prev w) rest cap)).
Proof.
  induction r as [|p|r1 IH1 r2 IH2|r1 IH1 r2 IH2|greedy p| | | |r1 IH1];
    intros prev s cap k Hk; cbn [exec denote].
  - (* Eps *)
    split.
    + intros H. exists [], s. auto.
    + intros (w & rest & -> & -> & H). exact H.
  - (* Cls *)
    split.
    + destruct s as [|c s]; [intros H; destruct H; discriminate|].
      destruct (p c) eqn:Hp; [|intros H; destruct H; discriminate].
      intros H. exists [c], s. split; [reflexivity|]. split; [eauto|exact H].
    + intros (w & rest & -> & (c & -> & Hp) & H). simpl. rewrite Hp. exact H.
  - (* Cat *)
    assert (Hk2 : cap_blind (fun prev' s' cap' => exec r2 prev' s' cap' k)).
    { intros p0 s0 c c'. rewrite !IH2 by exact Hk.
      split; intros (w & rest & E & D & H); exists w, rest;
        (split; [exact E|split; [exact D|]]); eapply Hk; exact H. }
    rewrite IH1 by exact Hk2. split.
    + intros (w1 & rest1 & -> & D1 & H).
      apply IH2 in H as (w2 & rest & -> & D2 & H); [|exact Hk].
      exists (w1 ++ w2), rest. split; [now rewrite app_assoc|].
      split; [exists w1, w2; auto|]. rewrite lastp_app. exact H.
    + intros (w & rest & -> & (w1 & w2 & -> & D1 & D2) & H).
      exists w1, (w2 ++ rest). split; [now rewrite app_assoc|].
      split; [exact D1|]. apply IH2; [exact Hk|].
      exists w2, rest. rewrite lastp_app in H. auto.
  - (* Alt *)
    rewrite is_Some_or_else, IH1, IH2 by exact Hk. split.
    + intros [(w & rest & E & D & H) | (w & rest & E & D & H)];
        exists w, rest; auto.
    + intros (w & rest & E & [D | D] & H); [left | right]; exists w, rest; auto.
  - (* Rep *)
    destruct greedy; [rewrite rep_greedy_spec | rewrite rep_lazy_spec]; reflexivity.
  - (* Bol *)
    destruct prev as [c|]; split.
    + intros H; destruct H; discriminate.
    + intros (w & rest & _ & (_ & E) & _). discriminate.
    + intros H. exists [], s. auto.
    + intros (w & rest & -> & (-> & _) & H). exact H.
  - (* Eol *)
    split.
    + destruct (at_eol s) eqn:E; [|intros H; destruct H; discriminate].
      intros H. exists [], s. auto.
    + intros (w & rest & -> & (-> & E) & H). simpl. rewrite E. exact H.
  - (* WordB *)
    split.
    + destruct (at_wordb prev s) eqn:E; [|intros H; destruct H; discriminate].
      intros H. exists [], s. auto.
    + intros (w & rest & -> & (-> & E) & H). simpl. rewrite E. exact H.
  - (* Grp *)
    rewrite IH1.
    + split; intros (w & rest & E & D & H); exists w, rest;
        (split; [exact E|split; [exact D|]]); eapply Hk; exact H.
    + intros p0 s0 c c'. reflexivity.
Qed.

End MatcherFacts.

Lemma accept_cap_blind : cap_blind accept.
Proof. intros p s c c'. unfold accept. split; eauto. Qed.

Lemma found_is_Some (m : option match_obj) : found m = true <-> is_Some m.
Proof.
  destruct m; simpl; split; eauto; [discriminate|].
  intros [x Hx]. discriminate.
Qed.

(** [re.match] succeeds exactly when a prefix of the subject is denoted. *)
Lemma re_match_spec (r : regex) (s : str) :
  found (re_match r s) = true <->
  exists w rest, s = w ++ rest /\ denote r None w rest.
Proof.
  rewrite found_is_Some. unfold re_match.
  rewrite (exec_spec r None s None accept accept_cap_blind).
  split; intros (w & rest & E & D); exists w, rest.
  - destruct D; auto.
  - split; [exact E|]. split; [exact D|]. unfold accept. eauto.
Qed.

Lemma search_from_spec (r : regex) (s : str) prev :
  found (search_from r prev s) = true <->
  exists pre w rest, s = pre ++ w ++ rest /\ denote r (lastp prev pre) w rest.
Proof.
  rewrite found_is_Some. revert prev.
  induction s as [|c s IH]; intros prev; cbn [search_from];
    rewrite is_Some_or_else, (exec_spec r _ _ None accept accept_cap_blind).
  - split.
    + intros [(w & rest & E & D & _) | H]; [|destruct H; discriminate].
      exists [], w, rest. auto.
    + intros (pre & w & rest & E & D). left.
      symmetry in E. apply app_eq_nil in E as [-> E]. exists w, rest.
      split; [now rewrite E|]. split; [exact D|]. unfold accept. eauto.
  - rewrite IH. split.
    + intros [(w & rest & E & D & _) | (pre & w & rest & E & D)].
      * exists [], w, rest. auto.
      * exists (c :: pre), w, rest. rewrite lastp_cons. split; [now rewrite E|exact D].
    + intros (pre & w & rest & E & D). destruct pre as [|d pre].
      * left. exists w, rest. split; [exact E|]. split; [exact D|].
        unfold accept. eauto.
      * right. simpl in E. inversion E; subst. rewrite lastp_cons in D. eauto.
Qed.

(** [re.search] succeeds exactly when some part of the subject is denoted. *)
Lemma re_search_spec (r : regex) (s : str) :
  found (re_search r s) = true <->
  exists pre w rest, s = pre ++ w ++ rest /\ denote r (lastp None pre) w rest.
Proof. apply search_from_spec. Qed.

(** * The loops of the Pair Extractor *)

Section Dedup.
Import ExtractNextlinePairs.

(** The (prefix, middle) pairs of the records emitted so far, kept beside
    the loop state. *)
Definition emit_key (keys : list (str * str)) (c : option (str * str)) : list (str * str) :=
  match c with
  | None => keys
  | Some k => if bool_decide (k ∈ keys) then keys else keys ++ [k]
  end.

(** Every turn of the loops, in the order the loops run them: the
    candidates of strategy 1, then those of strategy 2. *)
Definition schedule (lines : list str) (min_context max_context max_output : Z)
    : list (option (option (str * str))) :=
  flat_map (fun output_len =>
    flat_map (fun idx =>
      map (fun context_len => candidate lines output_len idx context_len)
          (range min_context (max_context + 1)))
      (range 0 (zlen (code_indices lines) - output_len)))
    [1%Z; 2%Z]
  ++ flat_map (fun idx =>
       map (fun context_len => candidate lines max_output idx context_len)
           (range min_context (max_context + 1)))
       (range_step 0 (zlen (code_indices lines) - max_output) 2).

(** A run of turns: each one emits its pair, and the first [IndexError]
    ends the run. *)
Definition run (cs : list (option (option (str * str)))) (st : state) : option state :=
  try_for_each cs (fun st c => c' ← c; Some (emit st c')) st.

(** The state agrees with the pairs emitted so far. *)
Definition agrees (st : state) (keys : list (str * str)) : Prop :=
  st.1 = map fim_record keys /\ NoDup keys /\ (forall k, k ∈ st.2 <-> k ∈ keys).

Lemma try_for_each_cons {A S} (x : A) (xs : list A) (f : S -> A -> option S) st :
  try_for_each (x :: xs) f st = f st x ≫= try_for_each xs f.
Proof.
  unfold try_for_each. cbn [fold_left mbind option_bind].
  destruct (f st x) as [st'|]; [reflexivity|]. cbn [mbind option_bind].
  induction xs as [|y xs IH]; [reflexivity|exact IH].
Qed.

Lemma try_for_each_ext {A S} (xs : list A) (f g : S -> A -> option S) :
  (forall st x, f st x = g st x) ->
  forall st, try_for_each xs f st = try_for_each xs g st.
Proof.
  intros E. induction xs as [|x xs IH]; intros st; [reflexivity|].
  rewrite !try_for_each_cons, E. destruct (g st x); [apply IH|reflexivity].
Qed.

Lemma try_for_each_app {A S} (xs ys : list A) (f : S -> A -> option S) st :
  try_for_each (xs ++ ys) f st = try_for_each xs f st ≫= try_for_each ys f.
Proof.
  revert st. induction xs as [|x xs IH]; intros st; [reflexivity|].
  cbn [app]. rewrite !try_for_each_cons.
  destruct (f st x) as [st'|]; [apply IH|reflexivity].
Qed.

Lemma run_app cs cs' st : run (cs ++ cs') st = run cs st ≫= run cs'.
Proof. apply try_for_each_app. Qed.

Lemma try_for_each_map {A} (xs : list A) (h : A -> option (option (str * str))) st :
  try_for_each xs (fun st x => c ← h x; Some (emit st c)) st = run (map h xs) st.
Proof.
  revert st. induction xs as [|x xs IH]; intros st; [reflexivity|].
  cbn [map]. unfold run. rewrite !try_for_each_cons.
  destruct (h x) as [c|]; [apply IH|reflexivity].
Qed.

Lemma try_for_each_flat_map {A} (xs : list A)
    (g : A -> list (option (option (str * str)))) st :
  try_for_each xs (fun st x => run (g x) st) st = run (flat_map g xs) st.
Proof.
  revert st. induction xs as [|x xs IH]; intros st; [reflexivity|].
  cbn [flat_map]. rewrite try_for_each_cons, run_app.
  destruct (run (g x) st); [apply IH|reflexivity].
Qed.

Lemma strategy1_runs lines min_context max_context st :
  strategy1 lines min_context max_context st
  = run (flat_map (fun output_len =>
           flat_map (fun idx =>
             map (fun context_len => candidate lines output_len idx context_len)
                 (range min_context (max_context + 1)))
             (range 0 (zlen (code_indices lines) - output_len)))
           [1%Z; 2%Z]) st.
Proof.
  unfold strategy1. rewrite <- try_for_each_flat_map.
  apply try_for_each_ext. intros st' output_len. rewrite <- try_for_each_flat_map.
  apply try_for_each_ext. intros st'' idx. unfold turn. apply try_for_each_map.
Qed.

Lemma strategy2_runs lines min_context max_context max_output st :
  strategy2 lines min_context max_context max_output st
  = run (flat_map (fun idx =>
           map (fun context_len => candidate lines max_output idx context_len)
               (range min_context (max_context + 1)))
           (range_step 0 (zlen (code_indices lines) - max_output) 2)) st.
Proof.
  unfold strategy2. cbv zeta. rewrite <- try_for_each_flat_map.
  apply try_for_each_ext. intros st' idx. unfold turn. apply try_for_each_map.
Qed.

(** The nested loops run the schedule. *)
Lemma extract_runs_schedule lines min_context max_context max_output st :
  extract_pairs_with lines min_context max_context max_output st
  = run (schedule lines min_context max_context max_output) st.
Proof.
  unfold extract_pairs_with, schedule.
  rewrite run_app, strategy1_runs.
  destruct (run _ st) as [st'|]; [apply strategy2_runs|reflexivity].
Qed.

(** A run ends in an [IndexError] exactly when one of its turns does;
    otherwise it folds [emit] over the candidates. *)
Lemma run_mapM cs : forall st,
  run cs st = cs' ← mapM id cs; Some (fold_left emit cs' st).
Proof.
  induction cs as [|c cs IH]; intros st; [reflexivity|].
  unfold run in *. rewrite try_for_each_cons.
  destruct c as [c|]; [|reflexivity].
  cbn [mbind option_bind mapM id]. rewrite IH.
  destruct (mapM id cs); reflexivity.
Qed.

Lemma run_total cs st :
  Forall (fun c => is_Some c) cs -> is_Some (run cs st).
Proof.
  intros H. revert st. induction H as [|c cs [c' ->] _ IH]; intros st;
    [eexists; reflexivity|].
  unfold run. rewrite try_for_each_cons. fold (run cs). apply IH.
Qed.

Lemma emit_agrees st keys c :
  agrees st keys -> agrees (emit st c) (emit_key keys c).
Proof.
  intros (H1 & H2 & H3). destruct c as [k|]; simpl; [|repeat split; auto; apply H3].
  destruct (decide (k ∈ keys)) as [Hin | Hnin].
  - rewrite (bool_decide_eq_false_2 (k ∉ st.2)) by (intros Hn; apply Hn, H3, Hin).
    rewrite (bool_decide_eq_true_2 _ Hin). repeat split; auto; apply H3.
  - rewrite (bool_decide_eq_true_2 (k ∉ st.2)) by (intros Hn; apply Hnin, H3, Hn).
    rewrite (bool_decide_eq_false_2 _ Hnin). simpl. split; [|split].
    + rewrite H1, map_app. reflexivity.
    + apply NoDup_app. split; [exact H2|]. split.
      * intros x Hx Hx'. apply list_elem_of_singleton in Hx'. subst x. contradiction.
      * apply NoDup_singleton.
    + intros x. cbn [snd]. rewrite elem_of_union, elem_of_singleton, elem_of_app, H3.
      rewrite list_elem_of_singleton. tauto.
Qed.

Lemma fold_emit_agrees cs : forall st keys,
  agrees st keys -> agrees (fold_left emit cs st) (fold_left emit_key cs keys).
Proof.
  induction cs as [|c cs IH]; intros st keys H; simpl; [exact H|].
  apply IH, emit_agrees, H.
Qed.

Lemma in_emit_key keys c k :
  k ∈ emit_key keys c <-> k ∈ keys \/ c = Some k.
Proof.
  destruct c as [k'|]; simpl.
  - destruct (bool_decide (k' ∈ keys)) eqn:E.
    + apply bool_decide_eq_true_1 in E. split; [auto|].
      intros [H | H]; [exact H|]. inversion H; subst. exact E.
    + rewrite elem_of_app, list_elem_of_singleton. split.
      * intros [H | ->]; auto.
      * intros [H | H]; [auto|]. inversion H; subst. auto.
  - split; [auto|]. intros [H | H]; [exact H | discriminate].
Qed.

Lemma in_fold_emit_key cs : forall keys k,
  k ∈ fold_left emit_key cs keys <-> k ∈ keys \/ Some k ∈ cs.
Proof.
  induction cs as [|c cs IH]; intros keys k; simpl.
  - rewrite elem_of_nil. tauto.
  - rewrite IH, in_emit_key, elem_of_cons. intuition congruence.
Qed.

(** The pairs of the emitted records, in the order of emission. *)
Definition emitted_keys (lines : list str) (min_context max_context max_output : Z)
    : option (list (str * str)) :=
  cs ← mapM id (schedule lines min_context max_context max_output);
  Some (fold_left emit_key cs []).

Lemma agrees_start : agrees ([], ∅) [].
Proof.
  split; [reflexivity|]. split; [apply NoDup_nil_2|].
  intros k. cbn [snd]. rewrite elem_of_empty, elem_of_nil. tauto.
Qed.

Lemma extract_pairs_keys lines min_context max_context max_output :
  extract_pairs_from_file lines min_context max_context max_output
  = map fim_record <$> emitted_keys lines min_context max_context max_output.
Proof.
  unfold extract_pairs_from_file, emitted_keys.
  rewrite extract_runs_schedule, run_mapM.
  destruct (mapM id _) as [cs|]; [|reflexivity].
  cbn [mbind option_bind fmap option_fmap option_map].
  f_equal. apply (fold_emit_agrees cs _ _ agrees_start).
Qed.

End Dedup.

(** * Each phase accepts its own output again (C8) *)

Section Idempotence.

(** The annotation keys are not the key [content]. *)
Lemma get_content_insert (key : string) (v : jval) (data : record) :
  key <> "content"%string -> get_content (<[ key := v ]> data) = get_content data.
Proof. intros H. unfold get_content. rewrite lookup_insert_ne by exact H. reflexivity. Qed.

Ltac same_content :=
  repeat rewrite get_content_insert by discriminate.

Ltac absorb_inserts :=
  apply map_eq; intros k; rewrite !lookup_insert; repeat case_decide; reflexivity.

Lemma phase1_accepts_its_output (quality_threshold : float) (task task' : record) :
  FilterQualityFimTasks.filter_record quality_threshold task = Some task' ->
  FilterQualityFimTasks.filter_record quality_threshold task' = Some task'.
Proof.
  unfold FilterQualityFimTasks.filter_record.
  destruct (get_content task) as [| | | |content| |] eqn:Ec; try discriminate.
  destruct (negb _) eqn:Ek; [discriminate|].
  destruct (ge _ _) eqn:Eg; [|discriminate].
  intros H. injection H as <-.
  same_content. rewrite Ec, Ek, Eg. f_equal.
  absorb_inserts.
Qed.

Lemma phase2_accepts_its_output (data data' : record) :
  ApplyMiddleContentFilter.filter_record data = Some data' ->
  ApplyMiddleContentFilter.filter_record data' = Some data'.
Proof.
  unfold ApplyMiddleContentFilter.filter_record. cbv zeta.
  destruct (ApplyMiddleContentFilter.should_reject_middle _) as [reject reason] eqn:Er.
  destruct reject; [discriminate|].
  intros H. injection H as <-.
  same_content. rewrite Er. f_equal.
  absorb_inserts.
Qed.

Lemma phase3_accepts_its_output (data data' : record) :
  ApplyPhase3bImprovedFilter.filter_record data = Some data' ->
  ApplyPhase3bImprovedFilter.filter_record data' = Some data'.
Proof.
  unfold ApplyPhase3bImprovedFilter.filter_record. cbv zeta.
  destruct (ApplyPhase3bImprovedFilter.extract_fim_components _) as [prefix middle] eqn:Ex.
  destruct (ApplyPhase3bImprovedFilter.should_reject_improved _ _) as [reject reason] eqn:Er.
  destruct reject; [discriminate|].
  intros H. injection H as <-.
  same_content. rewrite Ex, Er. f_equal.
  absorb_inserts.
Qed.

(** C8: a record that Phase 1, Phase 2 or Phase 3 accepts and rewrites with
    its annotation fields is accepted again by the same phase, which writes
    the same record: a second run of a phase on its own output rejects
    nothing. *)
Theorem phases_accept_their_own_output :
  (forall quality_threshold task task',
     FilterQualityFimTasks.filter_record quality_threshold task = Some task' ->
     FilterQualityFimTasks.filter_record quality_threshold task' = Some task')
  /\ (forall data data',
        ApplyMiddleContentFilter.filter_record data = Some data' ->
        ApplyMiddleContentFilter.filter_record data' = Some data')
  /\ (forall data data',
        ApplyPhase3bImprovedFilter.filter_record data = Some data' ->
        ApplyPhase3bImprovedFilter.filter_record data' = Some data').
Proof.
  split; [|split].
  - exact phase1_accepts_its_output.
  - exact phase2_accepts_its_output.
  - exact phase3_accepts_its_output.
Qed.

(** A record that passes the three phases. *)
Definition sample_content : str :=
  lit "<fim_prefix>#include <vector>" ++ [nl] ++ lit "namespace demo {" ++ [nl]
  ++ lit "int add_one(int x)" ++ [nl] ++ lit "{"
  ++ lit "<fim_suffix><fim_middle>return x + 1;".

Definition sample_record : record := {[ "content"%string := JStr sample_content ]}.

Definition accepted (o : option record) : bool :=
  match o with Some _ => true | None => false end.

Lemma accepted_Some (o : option record) : accepted o = true -> exists r, o = Some r.
Proof. destruct o; [eauto | discriminate]. Qed.

Lemma sample_passes_phase1 :
  accepted (FilterQualityFimTasks.filter_record 0.5%float sample_record) = true.
Proof. vm_compute. reflexivity. Qed.

Lemma sample_passes_phase2 :
  accepted (ApplyMiddleContentFilter.filter_record sample_record) = true.
Proof. vm_compute. reflexivity. Qed.

Lemma sample_passes_phase3 :
  accepted (ApplyPhase3bImprovedFilter.filter_record sample_record) = true.
Proof. vm_compute. reflexivity. Qed.

Lemma phases_accept_their_own_output_witness :
  (exists task',
     FilterQualityFimTasks.filter_record 0.5%float sample_record = Some task'
     /\ FilterQualityFimTasks.filter_record 0.5%float task' = Some task')
  /\ (exists data',
        ApplyMiddleContentFilter.filter_record sample_record = Some data'
        /\ ApplyMiddleContentFilter.filter_record data' = Some data')
  /\ (exists data',
        ApplyPhase3bImprovedFilter.filter_record sample_record = Some data'
        /\ ApplyPhase3bImprovedFilter.filter_record data' = Some data').
Proof.
  destruct phases_accept_their_own_output as (H1 & H2 & H3).
  split; [|split].
  - destruct (accepted_Some _ sample_passes_phase1) as [task' E].
    exists task'. split; [exact E | exact (H1 _ _ _ E)].
  - destruct (accepted_Some _ sample_passes_phase2) as [data' E].
    exists data'. split; [exact E | exact (H2 _ _ E)].
  - destruct (accepted_Some _ sample_passes_phase3) as [data' E].
    exists data'. split; [exact E | exact (H3 _ _ E)].
Defined.

End Idempotence.

(** * The quality scores lie in the unit interval (C7) *)

Section ScoreBounds.

#[local] Set Warnings "-inexact-float".

(** Every value a Phase-1, Phase-2 and Phase-3 score can take. *)
Definition phase1_values : list float :=
  [0.0; 0.1; 0.2; 0.30000000000000004; 0.4; 0.5; 0.6; 0.6000000000000001; 0.7;
   0.7000000000000001; 0.8; 0.9; 1.0]%float.

Definition phase2_values : list float :=
  [0.0; 0.3; 0.35000000000000003; 0.39999999999999997; 0.45; 0.49999999999999994;
   0.5; 0.55; 0.6; 0.6000000000000001; 0.65; 0.6500000000000001; 0.7; 0.75;
   0.7999999999999999; 0.8; 0.85; 0.8500000000000001; 0.9; 0.9500000000000001]%float.

Definition phase3_values : list float :=
  [0.0; 0.14999999999999997; 0.19999999999999998; 0.29999999999999993;
   0.30000000000000004; 0.35; 0.3999999999999999; 0.4; 0.44999999999999996; 0.45;
   0.5; 0.5499999999999999; 0.55; 0.6; 0.65; 0.7; 0.7000000000000001; 0.75;
   0.7999999999999999; 0.85; 0.8500000000000001; 0.8999999999999999; 0.9; 0.95;
   0.9999999999999999]%float.

Definition unit_b (x : float) : bool := le 0.0%float x && le x 1.0%float.

Lemma unit_b_spec x : unit_b x = true <-> in_unit_interval x.
Proof. unfold unit_b, in_unit_interval. apply andb_true_iff. Qed.

(** Case analysis on every test of a score, then evaluation. *)
Ltac split_tests :=
  repeat match goal with
         | |- context [if ?b then _ else _] => destruct b
         end.

(** The tests on lengths are hidden first: their numerals are large. *)
Ltac hide_tests :=
  repeat match goal with
         | |- context [Nat.leb ?a ?b] => generalize (Nat.leb a b); intro
         | |- context [Nat.ltb ?a ?b] => generalize (Nat.ltb a b); intro
         end.

Ltac pick_value :=
  vm_compute; repeat (first [left; reflexivity | right]).

Lemma phase1_score_value parts :
  In (FilterQualityFimTasks.calculate_quality_score parts) phase1_values.
Proof.
  unfold FilterQualityFimTasks.calculate_quality_score. hide_tests. cbv zeta.
  split_tests; pick_value.
Qed.

Lemma phase2_score_value middle_content :
  In (ApplyMiddleContentFilter.calculate_middle_quality_score middle_content) phase2_values.
Proof.
  unfold ApplyMiddleContentFilter.calculate_middle_quality_score. hide_tests. cbv zeta.
  split_tests; pick_value.
Qed.

Lemma phase3_score_value prefix middle :
  In (ApplyPhase3bImprovedFilter.calculate_length_quality_score prefix middle) phase3_values.
Proof.
  unfold ApplyPhase3bImprovedFilter.calculate_length_quality_score. hide_tests. cbv zeta.
  split_tests; pick_value.
Qed.

Lemma composite_phase1_value parts :
  In (CalculateComprehensiveQualityScores.calculate_phase1_score parts) phase1_values.
Proof.
  unfold CalculateComprehensiveQualityScores.calculate_phase1_score. hide_tests. cbv zeta.
  split_tests; pick_value.
Qed.

Lemma composite_phase2_value middle :
  In (CalculateComprehensiveQualityScores.calculate_phase2_score middle) phase2_values.
Proof.
  unfold CalculateComprehensiveQualityScores.calculate_phase2_score. hide_tests. cbv zeta.
  split_tests; pick_value.
Qed.

Lemma composite_phase3_value prefix middle :
  In (CalculateComprehensiveQualityScores.calculate_phase3_score prefix middle) phase3_values.
Proof.
  unfold CalculateComprehensiveQualityScores.calculate_phase3_score. hide_tests. cbv zeta.
  split_tests; pick_value.
Qed.

Lemma values_in_unit_interval :
  forallb unit_b phase1_values && forallb unit_b phase2_values
  && forallb unit_b phase3_values = true.
Proof. vm_compute. reflexivity. Qed.

Lemma composite_of_values :
  forallb (fun a => forallb (fun b => forallb (fun c =>
    unit_b (CalculateComprehensiveQualityScores.calculate_composite_score a b c))
    phase3_values) phase2_values) phase1_values = true.
Proof. vm_compute. reflexivity. Qed.

Lemma in_unit_of_value (vals : list float) (x : float) :
  forallb unit_b vals = true -> In x vals -> in_unit_interval x.
Proof.
  intros H Hx. apply unit_b_spec. rewrite forallb_forall in H. apply H, Hx.
Qed.

(** C7: the Phase-1 context score, the Phase-2 middle score, the Phase-3
    length score, the three scores the Composite Scorer recomputes, and the
    composite score 0.5 x phase1 + 0.3 x phase2 + 0.2 x phase3 of every
    record all lie in [0.0, 1.0]. *)
Theorem quality_scores_in_unit_interval :
  (forall parts, in_unit_interval (FilterQualityFimTasks.calculate_quality_score parts))
  /\ (forall middle_content,
        in_unit_interval (ApplyMiddleContentFilter.calculate_middle_quality_score middle_content))
  /\ (forall prefix middle,
        in_unit_interval
          (ApplyPhase3bImprovedFilter.calculate_length_quality_score prefix middle))
  /\ (forall parts,
        in_unit_interval
          (CalculateComprehensiveQualityScores.phase1_score
             (CalculateComprehensiveQualityScores.scores_of parts))
        /\ in_unit_interval
             (CalculateComprehensiveQualityScores.phase2_score
                (CalculateComprehensiveQualityScores.scores_of parts))
        /\ in_unit_interval
             (CalculateComprehensiveQualityScores.phase3_score
                (CalculateComprehensiveQualityScores.scores_of parts))
        /\ in_unit_interval
             (CalculateComprehensiveQualityScores.composite_score
                (CalculateComprehensiveQualityScores.scores_of parts))).
Proof.
  pose proof values_in_unit_interval as V.
  apply andb_true_iff in V as [V V3]. apply andb_true_iff in V as [V1 V2].
  split; [|split; [|split]].
  - intros. eapply in_unit_of_value; [exact V1 | apply phase1_score_value].
  - intros. eapply in_unit_of_value; [exact V2 | apply phase2_score_value].
  - intros. eapply in_unit_of_value; [exact V3 | apply phase3_score_value].
  - intros parts. cbn [CalculateComprehensiveQualityScores.scores_of
      CalculateComprehensiveQualityScores.phase1_score
      CalculateComprehensiveQualityScores.phase2_score
      CalculateComprehensiveQualityScores.phase3_score
      CalculateComprehensiveQualityScores.composite_score].
    split; [|split; [|split]].
    + eapply in_unit_of_value; [exact V1 | apply composite_phase1_value].
    + eapply in_unit_of_value; [exact V2 | apply composite_phase2_value].
    + eapply in_unit_of_value; [exact V3 | apply composite_phase3_value].
    + apply unit_b_spec.
      pose proof composite_of_values as C.
      rewrite forallb_forall in C.
      specialize (C _ (composite_phase1_value parts)).
      rewrite forallb_forall in C.
      specialize (C _ (composite_phase2_value
                         (CalculateComprehensiveQualityScores.get parts "middle"))).
      rewrite forallb_forall in C.
      exact (C _ (composite_phase3_value
                    (CalculateComprehensiveQualityScores.get parts "prefix")
                    (CalculateComprehensiveQualityScores.get parts "middle"))).
Qed.

End ScoreBounds.

(** * The bounds of Phase 3 (C6) *)

Section Phase3Bounds.
Import ApplyPhase3bImprovedFilter.

#[local] Set Warnings "-inexact-float".


















End Phase3Bounds.

(** * Stripping *)

Section StripFacts.

Lemma lstrip_by_idem (p : ascii -> bool) (s : str) :
  lstrip_by p (lstrip_by p s) = lstrip_by p s.
Proof.
  induction s as [|c s IH]; [reflexivity|].
  simpl. destruct (p c) eqn:E; [exact IH|]. simpl. rewrite E. reflexivity.
Qed.

Lemma lstrip_by_snoc (p : ascii -> bool) (l : str) (c : ascii) :
  p c = false -> lstrip_by p (l ++ [c]) = lstrip_by p l ++ [c].
Proof.
  intros Hc. induction l as [|a l IH]; simpl.
  - rewrite Hc. reflexivity.
  - destruct (p a); [exact IH | reflexivity].
Qed.

Lemma rstrip_by_cons (p : ascii -> bool) (c : ascii) (t : str) :
  p c = false -> rstrip_by p (c :: t) = c :: rstrip_by p t.
Proof.
  intros Hc. unfold rstrip_by. simpl rev.
  rewrite lstrip_by_snoc by exact Hc. rewrite rev_app_distr. reflexivity.
Qed.


Lemma lstrip_by_head (p : ascii -> bool) (s : str) :
  lstrip_by p s = [] \/ exists c t, lstrip_by p s = c :: t /\ p c = false.
Proof.
  induction s as [|c s IH]; [left; reflexivity|].
  simpl. destruct (p c) eqn:E; [exact IH|]. right. eauto.
Qed.


End StripFacts.

(** * The middles that survive Phase 2 (C5) *)

Section Phase2Survivors.
Import ApplyMiddleContentFilter.

Lemma denote_cat (r1 r2 : regex) prev (w1 w2 rest : str) :
  denote r1 prev w1 (w2 ++ rest) -> denote r2 (lastp prev w1) w2 rest ->
  denote (Cat r1 r2) prev (w1 ++ w2) rest.
Proof. intros H1 H2. exists w1, w2. auto. Qed.

Lemma denote_lit (s : str) prev rest : denote (Lit s) prev s rest.
Proof.
  revert prev. induction s as [|c s IH]; intros prev; [reflexivity|].
  change (c :: s) with ([c] ++ s). apply denote_cat; [|apply IH].
  exists c. split; [reflexivity|]. unfold chr. apply Ascii.eqb_refl.
Qed.







End Phase2Survivors.

(** * What each stage extracts as the middle (C9) *)

Section MiddleExtraction.

Definition fim_middle_marker : str := lit "<fim_middle>".

(** The text after the first occurrence of [marker] in [s]. *)
Fixpoint after_first (marker s : str) {struct s} : option str :=
  if startswith s marker then Some (drop (length marker) s)
  else match s with
       | [] => None
       | _ :: s' => after_first marker s'
       end.

(** [s] up to the first position where [stop] holds of the rest. *)
Fixpoint take_until (stop : str -> bool) (s : str) : str :=
  match s with
  | [] => []
  | c :: s' => if stop s then [] else c :: take_until stop s'
  end.

(** [s] without its final newline, if it ends with one. *)
Definition chomp (s : str) : str := take_until at_eol s.

(** [s] up to its first [<], or else without its final newline. *)
Definition at_lt_or_eol (s : str) : bool := startswith s "<" || at_eol s.
Definition cut (s : str) : str := take_until at_lt_or_eol s.

Context {R : Type}.

Lemma exec_lit (m : str) : forall prev s cap (k : @cont R),
  exec (Lit m) prev s cap k
  = if startswith s m then k (lastp prev m) (drop (length m) s) cap else None.
Proof.
  induction m as [|c m IH]; intros prev s cap k; [reflexivity|].
  cbn [Lit exec]. destruct s as [|b s]; [reflexivity|].
  cbn [startswith]. unfold chr at 1.
  rewrite (Ascii.eqb_sym c b).
  destruct (Ascii.eqb b c) eqn:E; [|reflexivity].
  apply Ascii.eqb_eq in E. subst b. rewrite IH, lastp_cons. reflexivity.
Qed.

Lemma rep_lazy_ext (p : cls) (k k' : option ascii -> str -> option R) :
  (forall prev s, k prev s = k' prev s) ->
  forall s prev, rep_lazy p prev s k = rep_lazy p prev s k'.
Proof.
  intros E. induction s as [|c s IH]; intros prev; cbn [rep_lazy]; rewrite E.
  - reflexivity.
  - rewrite IH. reflexivity.
Qed.

End MiddleExtraction.

Section LazyCapture.

(** A lazy [.*?] in group 1, followed by a test of the rest that holds at
    the end of the subject: the group is the subject up to the first
    position where the test holds. *)
Lemma rep_lazy_any_stop (stop : str -> bool) (s0 : str) :
  stop [] = true ->
  forall s pre prev, s0 = pre ++ s ->
    rep_lazy any prev s
      (fun _ s' => if stop s' then Some (Some (take (length s0 - length s') s0)) else None)
    = Some (Some (pre ++ take_until stop s)).
Proof.
  intros Hnil. induction s as [|c s IH]; intros pre prev E; cbn [rep_lazy take_until].
  - rewrite Hnil. subst s0. rewrite app_nil_r, Nat.sub_0_r, firstn_all. reflexivity.
  - destruct (stop (c :: s)) eqn:Es.
    + subst s0. rewrite length_app, Nat.add_sub.
      rewrite take_app_length, app_nil_r. reflexivity.
    + unfold any at 1. rewrite (IH (pre ++ [c]) (Some c)).
      * rewrite <- app_assoc. reflexivity.
      * rewrite <- app_assoc. exact E.
Qed.

Lemma exec_group_eol (s : str) prev cap :
  exec (Cat (Grp (Lazy any)) Eol) prev s cap accept = Some (Some (chomp s)).
Proof.
  cbn [exec Lazy].
  rewrite (rep_lazy_ext any _
             (fun _ s' => if at_eol s' then Some (Some (take (length s - length s') s))
                          else None)).
  - apply (rep_lazy_any_stop at_eol s eq_refl s [] prev eq_refl).
  - intros p s'. destruct (at_eol s'); reflexivity.
Qed.

Lemma exec_group_lt_or_eol (s : str) prev cap :
  exec (Cat (Grp (Lazy any)) (Alt (Lit "<") Eol)) prev s cap accept
  = Some (Some (cut s)).
Proof.
  cbn [exec Lazy].
  rewrite (rep_lazy_ext any _
             (fun _ s' => if at_lt_or_eol s'
                          then Some (Some (take (length s - length s') s)) else None)).
  - apply (rep_lazy_any_stop at_lt_or_eol s eq_refl s [] prev eq_refl).
  - intros p s'. unfold at_lt_or_eol.
    rewrite exec_lit. unfold accept.
    destruct (startswith s' "<"); [reflexivity|].
    cbn [orb]. destruct (at_eol s'); reflexivity.
Qed.

(** The search finds the first occurrence of the marker. *)
Lemma search_marker (rest : regex) (f : str -> str) (marker : str) :
  (forall s prev cap, exec rest prev s cap accept = Some (Some (f s))) ->
  forall s prev,
    search_from (Cat (Lit marker) rest) prev s
    = option_map (fun m => Some (f m)) (after_first marker s).
Proof.
  intros Hrest. induction s as [|c s IH]; intros prev;
    cbn [search_from after_first exec]; rewrite exec_lit;
    destruct (startswith _ marker); rewrite ?Hrest; try reflexivity.
  apply IH.
Qed.

Lemma re_search_marker (rest : regex) (f : str -> str) (marker : str) :
  (forall s prev cap, exec rest prev s cap accept = Some (Some (f s))) ->
  forall s,
    re_search (Cat (Lit marker) rest) s
    = option_map (fun m => Some (f m)) (after_first marker s).
Proof. intros H s. apply (search_marker rest f marker H). Qed.

End LazyCapture.

Section StageMiddles.

Lemma lstrip_by_app (p : ascii -> bool) (y z : str) :
  lstrip_by p (y ++ z) = if forallb p y then lstrip_by p z else lstrip_by p y ++ z.
Proof.
  induction y as [|c y IH]; [reflexivity|].
  simpl. destruct (p c); [exact IH | reflexivity].
Qed.

Lemma strip_snoc_space (y : str) (c : ascii) :
  isspace c = true -> strip (y ++ [c]) = strip y.
Proof.
  intros Hc. unfold strip, lstrip. rewrite lstrip_by_app.
  destruct (forallb isspace y) eqn:E.
  - simpl. rewrite Hc.
    pose proof (lstrip_by_app isspace y []) as H. rewrite E, app_nil_r in H.
    rewrite H. reflexivity.
  - unfold rstrip, rstrip_by. rewrite rev_app_distr. simpl. rewrite Hc. reflexivity.
Qed.

Lemma chomp_cases (m : str) : chomp m = m \/ m = chomp m ++ [nl].
Proof.
  unfold chomp. induction m as [|c m IH]; [left; reflexivity|].
  cbn [take_until]. destruct (at_eol (c :: m)) eqn:E.
  - right. destruct m as [|d m]; [|discriminate].
    simpl in E. apply Ascii.eqb_eq in E. subst c. reflexivity.
  - destruct IH as [IH | IH]; [left | right].
    + rewrite IH. reflexivity.
    + simpl. rewrite <- IH. reflexivity.
Qed.

Lemma strip_chomp (m : str) : strip (chomp m) = strip m.
Proof.
  destruct (chomp_cases m) as [E | E]; [rewrite E; reflexivity|].
  rewrite E at 2. symmetry. apply strip_snoc_space. reflexivity.
Qed.

Lemma startswith_app_one (a b : str) (x : ascii) :
  a <> [] -> startswith (a ++ b) [x] = startswith a [x].
Proof. destruct a as [|c a]; [congruence|]. intros _. reflexivity. Qed.

Lemma chomp_id (m : str) : endswith m [nl] = false -> chomp m = m.
Proof.
  unfold chomp, endswith. induction m as [|c m IH]; [reflexivity|].
  intros H. cbn [take_until]. destruct m as [|d m].
  - cbn [rev app startswith] in H. rewrite andb_true_r in H.
    cbn [at_eol take_until]. rewrite Ascii.eqb_sym, H. reflexivity.
  - change (at_eol (c :: d :: m)) with false. cbv iota. f_equal. apply IH.
    rewrite <- H. change (rev [nl]) with [nl].
    change (rev (c :: d :: m)) with (rev (d :: m) ++ [c]).
    symmetry. apply startswith_app_one.
    cbn [rev]. destruct (rev m); discriminate.
Qed.

Lemma cut_no_lt (m : str) : contains "<" m = false -> cut m = chomp m.
Proof.
  unfold cut, chomp. induction m as [|c m IH]; [reflexivity|].
  cbn [contains take_until]. intros H. apply orb_false_iff in H as [H1 H2].
  unfold at_lt_or_eol at 1. rewrite H1. cbn [orb].
  destruct (at_eol (c :: m)); [reflexivity|]. rewrite IH by exact H2. reflexivity.
Qed.

(** What the four extractions return, for every content. *)
Lemma phase1_middle (content : str) :
  FilterQualityFimTasks.extract_fim_parts content !! "middle"%string
  = chomp <$> after_first fim_middle_marker content.
Proof.
  unfold FilterQualityFimTasks.extract_fim_parts. cbv zeta.
  change FilterQualityFimTasks.fim_middle_re
    with (Cat (Lit fim_middle_marker) (Cat (Grp (Lazy any)) Eol)).
  rewrite (re_search_marker _ chomp fim_middle_marker exec_group_eol).
  destruct (after_first fim_middle_marker content) as [m|]; simpl.
  - rewrite lookup_insert_eq. reflexivity.
  - unfold FilterQualityFimTasks.set_group.
    destruct (re_search FilterQualityFimTasks.fim_suffix_re content),
             (re_search FilterQualityFimTasks.fim_prefix_re content);
      repeat rewrite lookup_insert_ne by discriminate; apply lookup_empty.
Qed.

Lemma composite_middle (content : str) :
  CalculateComprehensiveQualityScores.extract_fim_parts content !! "middle"%string
  = chomp <$> after_first fim_middle_marker content.
Proof.
  unfold CalculateComprehensiveQualityScores.extract_fim_parts. cbv zeta.
  change CalculateComprehensiveQualityScores.fim_middle_re
    with (Cat (Lit fim_middle_marker) (Cat (Grp (Lazy any)) Eol)).
  rewrite (re_search_marker _ chomp fim_middle_marker exec_group_eol).
  destruct (after_first fim_middle_marker content) as [m|]; simpl.
  - rewrite lookup_insert_eq. reflexivity.
  - unfold CalculateComprehensiveQualityScores.set_group.
    destruct (re_search CalculateComprehensiveQualityScores.fim_suffix_re content),
             (re_search CalculateComprehensiveQualityScores.fim_prefix_re content);
      repeat rewrite lookup_insert_ne by discriminate; apply lookup_empty.
Qed.

Lemma phase2_middle (content : str) :
  ApplyMiddleContentFilter.extract_fim_middle (JStr content)
  = match after_first fim_middle_marker content with
    | Some m => strip (cut m)
    | None => []
    end.
Proof.
  unfold ApplyMiddleContentFilter.extract_fim_middle.
  change ApplyMiddleContentFilter.fim_middle_re
    with (Cat (Lit fim_middle_marker) (Cat (Grp (Lazy any)) (Alt (Lit "<") Eol))).
  rewrite (re_search_marker _ cut fim_middle_marker exec_group_lt_or_eol).
  destruct (after_first fim_middle_marker content); reflexivity.
Qed.

Lemma phase3_middle (content : str) :
  (ApplyPhase3bImprovedFilter.extract_fim_components (JStr content)).2
  = match after_first fim_middle_marker content with
    | Some m => strip (cut m)
    | None => []
    end.
Proof.
  unfold ApplyPhase3bImprovedFilter.extract_fim_components. cbv zeta. cbn [snd].
  change ApplyPhase3bImprovedFilter.fim_middle_re
    with (Cat (Lit fim_middle_marker) (Cat (Grp (Lazy any)) (Alt (Lit "<") Eol))).
  rewrite (re_search_marker _ cut fim_middle_marker exec_group_lt_or_eol).
  destruct (after_first fim_middle_marker content); reflexivity.
Qed.

(** A content whose middle holds a [<] and blanks at both ends. *)
Definition padded_content : str :=
  lit "<fim_prefix>int a;<fim_suffix><fim_middle>  if (a < b)  ".

(** C9, counterexample: Phase 2 and Phase 3 return [if (a] for a middle
    that is [  if (a < b)  ]. *)
Lemma padded_middle_is_cut :
  after_first fim_middle_marker padded_content = Some (lit "  if (a < b)  ")
  /\ ApplyMiddleContentFilter.extract_fim_middle (JStr padded_content) = lit "if (a"
  /\ (ApplyPhase3bImprovedFilter.extract_fim_components (JStr padded_content)).2
     = lit "if (a".
Proof. vm_compute. repeat split; reflexivity. Qed.

(** C9, as amended: for a content with the [<fim_middle>] marker, Phase 1
    and the Composite Scorer recover as the middle everything after the
    first marker, in full and unchanged (with any [<] and any leading or
    trailing blanks), when that text does not end with a newline; Phase 2
    and Phase 3 recover that text with its leading and trailing whitespace
    stripped, when it holds no [<]. *)
Theorem stages_recover_the_middle (content m : str) :
  after_first fim_middle_marker content = Some m ->
  (endswith m [nl] = false ->
     FilterQualityFimTasks.extract_fim_parts content !! "middle"%string = Some m
     /\ CalculateComprehensiveQualityScores.extract_fim_parts content !! "middle"%string
        = Some m)
  /\ (contains "<" m = false ->
        ApplyMiddleContentFilter.extract_fim_middle (JStr content) = strip m
        /\ (ApplyPhase3bImprovedFilter.extract_fim_components (JStr content)).2 = strip m).
Proof.
  intros H. split.
  - intros Hnl. rewrite phase1_middle, composite_middle, H. simpl.
    rewrite (chomp_id _ Hnl). split; reflexivity.
  - intros Hlt. rewrite phase2_middle, phase3_middle, H.
    rewrite (cut_no_lt _ Hlt), strip_chomp. split; reflexivity.
Qed.

Lemma stages_recover_the_middle_witness :
  (FilterQualityFimTasks.extract_fim_parts padded_content !! "middle"%string
   = Some (lit "  if (a < b)  ")
   /\ CalculateComprehensiveQualityScores.extract_fim_parts padded_content
        !! "middle"%string = Some (lit "  if (a < b)  "))
  /\ (ApplyMiddleContentFilter.extract_fim_middle (JStr sample_content)
      = strip (lit "return x + 1;")
      /\ (ApplyPhase3bImprovedFilter.extract_fim_components (JStr sample_content)).2
         = strip (lit "return x + 1;")).
Proof.
  split.
  - apply (stages_recover_the_middle padded_content (lit "  if (a < b)  "));
      vm_compute; reflexivity.
  - apply (stages_recover_the_middle sample_content (lit "return x + 1;"));
      vm_compute; reflexivity.
Defined.

End StageMiddles.

(** * The indentation test of the prefix check (C4) *)

Section PrefixCheck.

#[local] Set Warnings "-inexact-float".

(** An empty first line, then a line indented by 8 columns. *)
Definition indented_prefix : str := [nl] ++ lit "        foo(bar);".

(** A first line of 6 blanks, then an include line at column 0. *)
Definition include_prefix : str := lit "      " ++ [nl] ++ lit "#include <a.h>".

Definition parts_of (prefix middle : str) : gmap string str :=
  <[ "middle"%string := middle ]> (<[ "prefix"%string := prefix ]> ∅).

(** The indentation the check measures: that of the first line of the
    prefix, blank or not. *)
Definition first_raw_line_indent (prefix : str) : nat :=
  match split_nl prefix with
  | l :: _ => (len l - len (lstrip l))%nat
  | [] => 0%nat
  end.

Lemma phase1_rejects_indented_first_raw_line (prefix : str) :
  (4 < first_raw_line_indent prefix)%nat ->
  FilterQualityFimTasks.starts_with_complete_code_line prefix = false.
Proof.
  unfold first_raw_line_indent, FilterQualityFimTasks.starts_with_complete_code_line.
  intros H. destruct (negb (truthy prefix) || negb (truthy (strip prefix))); [reflexivity|].
  cbv zeta. destruct (FilterQualityFimTasks.first_meaningful _); [|reflexivity].
  destruct (split_nl prefix) as [|l ls]; [lia|].
  apply Nat.ltb_lt in H. rewrite H. reflexivity.
Qed.

Lemma startswith_app (s p : str) :
  startswith s p = true -> exists rest, s = p ++ rest.
Proof.
  revert s. induction p as [|a p IH]; intros s H; [exists s; reflexivity|].
  apply startswith_cons in H as (s' & -> & H).
  destruct (IH _ H) as (rest & ->). exists rest. reflexivity.
Qed.

Lemma split_nl_all_space (s : str) :
  forallb isspace s = true -> Forall (fun l => forallb isspace l = true) (split_nl s).
Proof.
  induction s as [|c s IH]; intros H; [repeat constructor|].
  simpl in H. apply andb_true_iff in H as [Hc Hs]. specialize (IH Hs).
  cbn [split_nl]. destruct (Ascii.eqb c nl); [constructor; [reflexivity|exact IH]|].
  destruct (split_nl s) as [|l ls]; [repeat constructor; simpl; now rewrite Hc|].
  inversion IH; subst. constructor; [simpl; now rewrite Hc|assumption].
Qed.

Lemma lstrip_all_space (l : str) : forallb isspace l = true -> lstrip l = [].
Proof.
  intros H. pose proof (lstrip_by_app isspace l []) as E.
  rewrite H, app_nil_r in E. exact E.
Qed.

Lemma strip_all_space (l : str) : forallb isspace l = true -> strip l = [].
Proof. intros H. unfold strip. rewrite (lstrip_all_space _ H). reflexivity. Qed.

Lemma lstrip_not_all_space (l : str) :
  forallb isspace l = false -> lstrip l <> [].
Proof.
  unfold lstrip. induction l as [|c l IH]; [discriminate|].
  simpl. destruct (isspace c); [exact IH | discriminate].
Qed.

Lemma strip_not_all_space (l : str) : forallb isspace l = false -> strip l <> [].
Proof.
  intros H. unfold strip, lstrip.
  destruct (lstrip_by_head isspace l) as [E | (c & t & E & Hc)].
  - destruct (lstrip_not_all_space _ H E).
  - rewrite E. unfold rstrip. rewrite rstrip_by_cons by exact Hc. discriminate.
Qed.

Lemma first_meaningful_none (ls : list str) :
  Forall (fun l => forallb isspace l = true) ls ->
  FilterQualityFimTasks.first_meaningful ls = None.
Proof.
  induction 1 as [|l ls Hl _ IH]; [reflexivity|].
  cbn [FilterQualityFimTasks.first_meaningful]. cbv zeta.
  rewrite (strip_all_space _ Hl). exact IH.
Qed.

(** A prefix with a meaningful line is not blank. *)
Lemma meaningful_prefix_truthy (prefix first_line : str) :
  FilterQualityFimTasks.first_meaningful (split_nl prefix) = Some first_line ->
  negb (truthy prefix) || negb (truthy (strip prefix)) = false.
Proof.
  intros H. destruct (forallb isspace prefix) eqn:E.
  - rewrite (first_meaningful_none _ (split_nl_all_space _ E)) in H. discriminate.
  - pose proof (strip_not_all_space _ E) as Hs.
    destruct prefix as [|c prefix]; [discriminate|].
    destruct (strip (c :: prefix)); [congruence | reflexivity].
Qed.

(** The first stripped non-blank line opens with an include, a pragma, a
    namespace or using statement, or a class, struct or enum. *)
Definition anchored (first_line : str) : bool :=
  startswith first_line "#include" || startswith first_line "#pragma"
  || startswith first_line "namespace " || startswith first_line "using "
  || startswith first_line "class " || startswith first_line "struct "
  || startswith first_line "enum ".

(** The early rejections of the check do not fire on an anchored line. *)
Lemma anchored_cases (first_line : str) :
  anchored first_line = true ->
  exists kw rest, first_line = lit kw ++ rest
    /\ In kw ["#include"; "#pragma"; "namespace "; "using "; "class "; "struct ";
              "enum "]%string.
Proof.
  unfold anchored. intros H.
  repeat (apply orb_true_iff in H as [H | H]);
    apply startswith_app in H as (rest & ->); eexists _, rest;
    (split; [reflexivity|]); simpl; tauto.
Qed.

Ltac each_anchor H :=
  simpl in H; repeat (destruct H as [<- | H]); [..|destruct H].

Lemma anchored_not_rejected (first_line : str) :
  anchored first_line = true ->
  FilterQualityFimTasks.matches_any FilterQualityFimTasks.incomplete_control_patterns
    first_line = false
  /\ found (re_match (Seq [Bol; Star FilterQualityFimTasks.punct; Eol]) first_line) = false
  /\ found (re_match (Seq [Bol; Plus word; Eol]) first_line) = false.
Proof.
  intros H. destruct (anchored_cases _ H) as (kw & rest & -> & Hkw).
  each_anchor Hkw; destruct rest; vm_compute; repeat split; reflexivity.
Qed.

Ltac test_is_false :=
  match goal with
  | |- (if ?b then _ else _) = true =>
      replace b with false by (vm_compute; reflexivity); cbv iota
  end.

Lemma include_is_complete_pattern (rest : str) :
  FilterQualityFimTasks.matches_any FilterQualityFimTasks.meaningful_complete_patterns
    (lit "#include" ++ rest) = true.
Proof.
  unfold FilterQualityFimTasks.matches_any. apply existsb_exists.
  exists (Cat Bol (Cat (Lit "#") (Cat (Cls word) (Rep true word)))).
  split; [left; reflexivity|].
  apply re_match_spec. exists (lit "#include"), rest. split; [reflexivity|].
  change (lit "#include") with ([] ++ lit "#" ++ lit "i" ++ lit "nclude").
  apply denote_cat; [split; reflexivity|].
  apply denote_cat; [apply denote_lit|].
  apply denote_cat; [exists "i"%char; split; reflexivity | reflexivity].
Qed.

Lemma include_is_no_access_specifier (rest : str) :
  existsb (str_eqb (rstrip_chars (lit "#include" ++ rest) ":"))
          (map lit ["public"; "private"; "protected"]%string) = false.
Proof.
  unfold rstrip_chars.
  change (lit "#include" ++ rest) with ("#"%char :: (lit "include" ++ rest)).
  rewrite rstrip_by_cons by reflexivity.
  vm_compute. reflexivity.
Qed.

(** Without blank lines before it, an anchored first line passes: the
    check accepts a prefix whose first raw line is indented by at most 4
    columns and whose first non-blank line is anchored. *)
Lemma phase1_accepts_anchored (prefix first_line : str) :
  FilterQualityFimTasks.first_meaningful (split_nl prefix) = Some first_line ->
  (first_raw_line_indent prefix <= 4)%nat ->
  anchored first_line = true ->
  FilterQualityFimTasks.starts_with_complete_code_line prefix = true.
Proof.
  intros Hf Hi Ha. unfold FilterQualityFimTasks.starts_with_complete_code_line.
  rewrite (meaningful_prefix_truthy _ _ Hf). cbv zeta. rewrite Hf.
  unfold first_raw_line_indent in Hi.
  destruct (split_nl prefix) as [|l ls]; [discriminate|].
  apply Nat.ltb_ge in Hi. rewrite Hi.
  destruct (anchored_not_rejected _ Ha) as (T1 & T2 & T3). rewrite T1, T2, T3.
  destruct (anchored_cases _ Ha) as (kw & rest & -> & Hkw).
  each_anchor Hkw; try (vm_compute; reflexivity).
  destruct (startswith _ "#include" && _); [reflexivity|].
  do 6 test_is_false.
  replace (negb (startswith (lit "#include" ++ rest) "#")) with false
    by (vm_compute; reflexivity).
  rewrite andb_false_r.
  test_is_false.
  rewrite include_is_no_access_specifier, include_is_complete_pattern. reflexivity.
Qed.

(** C4, the code at the failing inputs: the indentation is measured on the
    first line of the prefix and not on its first non-blank line.  A prefix
    whose first non-blank line is indented by 8 columns after an empty line
    passes the check of Phase 1 and of the Composite Scorer and gets a
    positive score; a prefix whose first non-blank line is an include at
    column 0 after a line of 6 blanks fails the check and scores 0. *)
Theorem indentation_is_measured_on_the_first_raw_line :
  split_nl indented_prefix = [[]; lit "        foo(bar);"]
  /\ FilterQualityFimTasks.starts_with_complete_code_line indented_prefix = true
  /\ CalculateComprehensiveQualityScores.starts_with_complete_code_line indented_prefix = true
  /\ FilterQualityFimTasks.calculate_quality_score
       (parts_of indented_prefix "return x + 1;") = 0.8%float
  /\ split_nl include_prefix = [lit "      "; lit "#include <a.h>"]
  /\ FilterQualityFimTasks.starts_with_complete_code_line include_prefix = false
  /\ CalculateComprehensiveQualityScores.starts_with_complete_code_line include_prefix = false
  /\ FilterQualityFimTasks.calculate_quality_score
       (parts_of include_prefix "return x + 1;") = 0.0%float
  /\ FilterQualityFimTasks.starts_with_complete_code_line "#include <a.h>" = true.
Proof. vm_compute. repeat split; reflexivity. Qed.

End PrefixCheck.

(** * The cleaning of the context and output windows *)

Section WindowCleaning.
Import ExtractNextlinePairs.

Lemma leading_droppable_cases (l : str) :
  leading_droppable l = negb (truthy (strip l)) || comment_line l.
Proof.
  unfold leading_droppable, comment_line.
  destruct (truthy (strip l)), (startswith (strip l) "/*"),
           (startswith (strip l) "//"), (startswith (strip l) "*"); reflexivity.
Qed.

Lemma drop_leading_head (context_lines : list str) :
  match drop_leading context_lines with
  | [] => True
  | l :: _ => leading_droppable l = false
  end.
Proof.
  induction context_lines as [|l ls IH]; cbn [drop_leading]; [exact I|].
  destruct (leading_droppable l) eqn:E; [exact IH | exact E].
Qed.

Lemma drop_leading_sublist (context_lines : list str) :
  sublist (drop_leading context_lines) context_lines.
Proof.
  induction context_lines as [|l ls IH]; cbn [drop_leading]; [constructor|].
  destruct (leading_droppable l); [apply sublist_cons, IH | reflexivity].
Qed.

Lemma filter_sublist {A} (f : A -> bool) (l : list A) : sublist (List.filter f l) l.
Proof.
  induction l as [|x l IH]; cbn [List.filter]; [constructor|].
  destruct (f x); [apply sublist_skip, IH | apply sublist_cons, IH].
Qed.

Lemma Forall_filter_true {A} (f : A -> bool) (l : list A) :
  Forall (fun x => f x = true) (List.filter f l).
Proof.
  induction l as [|x l IH]; cbn [List.filter]; [constructor|].
  destruct (f x) eqn:E; [constructor; assumption | exact IH].
Qed.

Lemma filter_all_true {A} (f : A -> bool) (l : list A) :
  Forall (fun x => f x = true) l -> List.filter f l = l.
Proof.
  induction 1 as [|x l Hx _ IH]; cbn [List.filter]; [reflexivity|].
  rewrite Hx, IH. reflexivity.
Qed.

Lemma clean_input_context_head (context_lines : list str) :
  match clean_input_context context_lines with
  | [] => True
  | l :: _ => truthy (strip l) = true /\ comment_line l = false
  end.
Proof.
  unfold clean_input_context.
  pose proof (drop_leading_head context_lines) as H.
  destruct (drop_leading context_lines) as [|l rest]; [exact I|].
  rewrite leading_droppable_cases in H. apply orb_false_iff in H as [Hb Hc].
  cbn [List.filter]. rewrite Hc. cbn [negb].
  split; [|exact Hc]. destruct (truthy (strip l)); [reflexivity | discriminate].
Qed.

(** X1: the cleaned context holds no comment line, and its first line, if
    there is one, is neither blank nor a comment line. *)
Theorem cleaned_context_starts_with_code (context_lines : list str) :
  Forall (fun l => comment_line l = false) (clean_input_context context_lines)
  /\ match clean_input_context context_lines with
     | [] => True
     | l :: _ => truthy (strip l) = true /\ comment_line l = false
     end.
Proof.
  split; [|apply clean_input_context_head].
  unfold clean_input_context.
  eapply Forall_impl; [apply Forall_filter_true|].
  intros l H. apply negb_true_iff in H. exact H.
Qed.

(** X2: cleaning a cleaned context changes nothing, and the cleaned
    context is the given one with lines removed, the others in their order. *)
Theorem clean_input_context_is_idempotent (context_lines : list str) :
  clean_input_context (clean_input_context context_lines)
  = clean_input_context context_lines
  /\ sublist (clean_input_context context_lines) context_lines.
Proof.
  split.
  - pose proof (clean_input_context_head context_lines) as H.
    assert (F : Forall (fun l => negb (comment_line l) = true)
                       (clean_input_context context_lines))
      by apply Forall_filter_true.
    destruct (clean_input_context context_lines) as [|l rest] eqn:E; [reflexivity|].
    destruct H as [Ht Hc].
    unfold clean_input_context at 1. cbn [drop_leading].
    rewrite leading_droppable_cases, Ht, Hc. cbn [negb orb].
    apply filter_all_true, F.
  - unfold clean_input_context.
    etransitivity; [apply filter_sublist | apply drop_leading_sublist].
Qed.

Lemma Forall_last {A} (P : A -> Prop) (l : list A) (d : A) :
  Forall P l -> l <> [] -> P (List.last l d).
Proof.
  induction 1 as [|x l Hx Hl IH]; [congruence|]. intros _.
  destruct l as [|y l]; [exact Hx|]. apply IH. discriminate.
Qed.

Lemma last_test_false (f : str -> bool) (cleaned : list str) :
  Forall (fun l => f l = false) cleaned ->
  truthy cleaned && f (List.last cleaned []) = false.
Proof.
  intros H. destruct cleaned as [|x l]; [reflexivity|].
  cbn [truthy andb]. apply (Forall_last _ _ [] H). discriminate.
Qed.

Lemma pop_open_braces_keeps (fuel : nat) (cleaned : list str) :
  Forall (fun l => str_eqb (strip l) "{" = false) cleaned ->
  pop_open_braces fuel cleaned = cleaned.
Proof.
  intros H. destruct fuel; cbn [pop_open_braces]; [reflexivity|].
  rewrite (last_test_false (fun l => str_eqb (strip l) "{") _ H). reflexivity.
Qed.

Lemma pop_unpaired_keeps (fuel : nat) (cleaned : list str) (o c : nat) :
  Forall (fun l => str_eqb (strip l) "}" = false) cleaned ->
  pop_unpaired fuel cleaned o c = cleaned.
Proof.
  intros H. destruct fuel; cbn [pop_unpaired]; [reflexivity|].
  pose proof (last_test_false (fun l => str_eqb (strip l) "}") _ H) as E.
  cbv beta in E.
  destruct (truthy cleaned); [|reflexivity]. cbn [andb] in E |- *.
  rewrite E, andb_false_r. reflexivity.
Qed.

(** The step of [clean_output_lines] between its two loops: a single line
    that ends with an opening brace loses its trailing braces and blanks. *)
Definition trim_single_open_brace (cleaned : list str) : list str :=
  match cleaned with
  | [l] => if endswith (strip l) "{" then [rstrip (rstrip_chars l " {")] else cleaned
  | _ => cleaned
  end.

(** [[l for l in ls if l.strip() != brace]]. *)
Definition without_lines_of (brace : str) (ls : list str) : list str :=
  List.filter (fun l => negb (str_eqb (strip l) brace)) ls.

Lemma without_lines_of_spec (brace : str) (ls : list str) :
  Forall (fun l => str_eqb (strip l) brace = false) (without_lines_of brace ls).
Proof.
  unfold without_lines_of. eapply Forall_impl; [apply Forall_filter_true|].
  intros l H. apply negb_true_iff in H. exact H.
Qed.

Lemma clean_output_lines_straight (output_lines : list str) :
  clean_output_lines output_lines
  = without_lines_of "}"
      (map lstrip (trim_single_open_brace (without_lines_of "{" output_lines))).
Proof.
  unfold clean_output_lines. cbv zeta.
  fold (without_lines_of "{" output_lines).
  rewrite pop_open_braces_keeps by apply without_lines_of_spec.
  fold (trim_single_open_brace (without_lines_of "{" output_lines)).
  fold (without_lines_of "}"
          (map lstrip (trim_single_open_brace (without_lines_of "{" output_lines)))).
  apply pop_unpaired_keeps, without_lines_of_spec.
Qed.

(** X3: neither [while] loop of [clean_output_lines] ever removes a line:
    the result is the input without the lines that are a lone opening
    brace, with the single-line trim applied, every line left-stripped, and
    without the lines that are a lone closing brace. *)
Theorem clean_output_loops_remove_nothing (output_lines : list str) :
  clean_output_lines output_lines
  = without_lines_of "}"
      (map lstrip (trim_single_open_brace (without_lines_of "{" output_lines)))
  /\ (forall fuel cleaned,
        pop_open_braces fuel (without_lines_of "{" cleaned) = without_lines_of "{" cleaned)
  /\ (forall fuel cleaned open_brackets close_brackets,
        pop_unpaired fuel (without_lines_of "}" cleaned) open_brackets close_brackets
        = without_lines_of "}" cleaned).
Proof.
  split; [apply clean_output_lines_straight|]. split.
  - intros. apply pop_open_braces_keeps, without_lines_of_spec.
  - intros. apply pop_unpaired_keeps, without_lines_of_spec.
Qed.

Lemma trim_single_length (cleaned : list str) :
  length (trim_single_open_brace cleaned) = length cleaned.
Proof.
  destruct cleaned as [|l [|l' rest]]; try reflexivity.
  cbn [trim_single_open_brace]. destruct (endswith _ _); reflexivity.
Qed.

(** X4: no line of the cleaned output starts with whitespace, none is a
    lone closing brace, and the cleaned output has at most as many lines as
    the given one. *)
Theorem cleaned_output_lines_shape (output_lines : list str) :
  Forall (fun l => lstrip l = l /\ str_eqb (strip l) "}" = false)
         (clean_output_lines output_lines)
  /\ (length (clean_output_lines output_lines) <= length output_lines)%nat.
Proof.
  rewrite clean_output_lines_straight. split.
  - apply Forall_and. split; [|apply without_lines_of_spec].
    generalize (trim_single_open_brace (without_lines_of "{" output_lines)).
    unfold without_lines_of.
    intros ls. induction ls as [|l ls IH]; cbn [map List.filter]; [constructor|].
    destruct (negb _); [|exact IH].
    constructor; [apply lstrip_by_idem | exact IH].
  - unfold without_lines_of at 1.
    etransitivity; [apply List.filter_length_le|].
    rewrite length_map, trim_single_length.
    apply List.filter_length_le.
Qed.

End WindowCleaning.

From Stdlib Require Import Sorted.

(** * The CodeLineIndex and the windows of the Pair Extractor *)

Section ExtractorWindows.
Import ExtractNextlinePairs.

Lemma enumerate_sorted {A} (f : nat * A -> bool) (ls : list A) : forall a,
  StronglySorted Z.lt
    (map (fun il : nat * A => Z.of_nat il.1)
         (List.filter f (combine (seq a (length ls)) ls)))
  /\ Forall (fun k => (Z.of_nat a <= k)%Z)
       (map (fun il : nat * A => Z.of_nat il.1)
            (List.filter f (combine (seq a (length ls)) ls))).
Proof.
  induction ls as [|x ls IH]; intros a; cbn [length seq combine List.filter map].
  - split; constructor.
  - destruct (IH (S a)) as [Hs Hb].
    assert (Hb' : Forall (fun k => (Z.of_nat a < k)%Z)
                    (map (fun il : nat * A => Z.of_nat il.1)
                         (List.filter f (combine (seq (S a) (length ls)) ls)))).
    { eapply Forall_impl; [exact Hb|]. cbv beta. intros k Hk. lia. }
    assert (Hb'' : Forall (fun k => (Z.of_nat a <= k)%Z)
                     (map (fun il : nat * A => Z.of_nat il.1)
                          (List.filter f (combine (seq (S a) (length ls)) ls)))).
    { eapply Forall_impl; [exact Hb|]. cbv beta. intros k Hk. lia. }
    destruct (f (a, x)); cbn [map fst].
    + split.
      * constructor; [exact Hs | exact Hb'].
      * constructor; [lia | exact Hb''].
    + split; [exact Hs | exact Hb''].
Qed.

(** X5: the CodeLineIndex is strictly increasing, so it lists every code
    line once and in file order, and it is no longer than the file. *)
Theorem code_indices_strictly_increasing (lines : list str) :
  StronglySorted Z.lt (code_indices lines)
  /\ (length (code_indices lines) <= length lines)%nat.
Proof.
  split.
  - apply (enumerate_sorted (fun il => is_code_line il.2) lines 0).
  - unfold code_indices. rewrite length_map.
    etransitivity; [apply List.filter_length_le|].
    rewrite length_combine, length_seq. lia.
Qed.

(** A line of real code, as [has_real_code] counts it: its stripped form is
    not empty, does not start a comment, is not made of whitespace, brackets,
    semicolons, commas and dots only, and is not a preprocessor directive
    other than an include. *)
Definition only_punct : cls := cup ws (oneof "{}[]();,.").

Definition real_code_line (line : str) : bool :=
  let stripped := strip line in
  truthy stripped && negb (comment_start stripped)
  && negb (forallb only_punct stripped)
  && negb (startswith stripped "#" && negb (startswith stripped "#include")).

Lemma at_eol_cases (rest : str) : at_eol rest = true -> rest = [] \/ rest = [nl].
Proof.
  destruct rest as [|c [|d rest]]; cbn; intros H; try discriminate; auto.
  apply Ascii.eqb_eq in H. subst c. auto.
Qed.

(** A pattern [^[...]*$] whose class holds the newline matches exactly the
    texts made of characters of the class. *)
Lemma anchored_class_match (p : cls) (s : str) :
  p nl = true ->
  found (re_match (Seq [Bol; Star p; Eol]) s) = forallb p s.
Proof.
  intros Hnl. apply eq_true_iff_eq. rewrite re_match_spec. split.
  - intros (w & rest & -> & w1 & w2 & -> & [-> _] & w3 & w4 & -> & H3 & [-> H4]).
    cbn [denote] in H3. cbn [app] in *. rewrite app_nil_r.
    rewrite forallb_app, H3. cbn [andb].
    destruct (at_eol_cases _ H4) as [-> | ->]; [reflexivity|].
    cbn [forallb]. rewrite Hnl. reflexivity.
  - intros H. exists s, []. split; [now rewrite app_nil_r|].
    exists [], s. split; [reflexivity|]. split; [split; reflexivity|].
    exists s, []. split; [now rewrite app_nil_r|]. split; [exact H|].
    split; reflexivity.
Qed.

Lemma only_punct_match (stripped : str) :
  found (re_match only_punct_re stripped) = forallb only_punct stripped.
Proof. apply (anchored_class_match only_punct). reflexivity. Qed.

Lemma has_real_code_from_exists (lines : list str) : forall n,
  has_real_code_from n lines = existsb real_code_line lines.
Proof.
  induction lines as [|line rest IH]; intros n; [reflexivity|].
  cbn [has_real_code_from existsb]. cbv zeta. unfold real_code_line at 1. cbv zeta.
  rewrite only_punct_match, !IH.
  destruct (truthy (strip line)); [|reflexivity].
  destruct (comment_start (strip line)); [reflexivity|].
  destruct (forallb only_punct (strip line)); [reflexivity|].
  destruct (startswith (strip line) "#" && negb (startswith (strip line) "#include"));
    reflexivity.
Qed.

(** X6: [has_real_code] is true exactly when some line of the window is a
    line of real code; one such line is enough, whatever the counter
    suggests, and the windows of two lists have real code when one has. *)
Theorem has_real_code_is_some_real_line (lines more : list str) :
  has_real_code lines = existsb real_code_line lines
  /\ has_real_code (lines ++ more) = has_real_code lines || has_real_code more.
Proof.
  unfold has_real_code. rewrite !has_real_code_from_exists.
  split; [reflexivity | apply existsb_app].
Qed.

Lemma range_bounds (lo hi x : Z) : In x (range lo hi) -> (lo <= x < hi)%Z.
Proof.
  unfold range. rewrite in_map_iff. intros (k & <- & Hk). apply in_seq in Hk. lia.
Qed.

Lemma range_step_lower (hi step x : Z) :
  (0 < step)%Z -> In x (range_step 0 hi step) -> (0 <= x)%Z.
Proof.
  intros Hs. unfold range_step. rewrite in_map_iff. intros (k & <- & _). nia.
Qed.

Lemma range_step_bounds (hi step x : Z) :
  (0 < step)%Z -> In x (range_step 0 hi step) -> (0 <= x < hi)%Z.
Proof.
  intros Hs. unfold range_step. rewrite in_map_iff. intros (k & <- & Hk).
  apply in_seq in Hk. split; [nia|].
  destruct (Z.le_gt_cases hi 0) as [Hle | Hgt].
  - assert (E : ((hi - 0 + step - 1) / step <= 0)%Z).
    { apply Z.lt_succ_r. apply Z.div_lt_upper_bound; lia. }
    lia.
  - assert (E : (step * ((hi - 0 + step - 1) / step) <= hi - 0 + step - 1)%Z)
      by (apply Z.mul_div_le; lia).
    nia.
Qed.

(** Indexing inside the list raises nothing. *)
Lemma getitem_in_range {A} (l : list A) (i : Z) :
  (0 <= i < zlen l)%Z -> exists x, getitem l i = Some x /\ In x l.
Proof.
  intros H. unfold getitem. destruct (Z.leb_spec 0 i); [|lia].
  destruct (lookup_lt_is_Some_2 l (Z.to_nat i)) as [x Hx]; [unfold zlen in H; lia|].
  exists x. split; [exact Hx|]. apply list_elem_of_In. eapply list_elem_of_lookup_2, Hx.
Qed.

Lemma mapM_total {A B} (f : A -> option B) (l : list A) :
  Forall (fun x => is_Some (f x)) l -> is_Some (mapM f l).
Proof.
  induction 1 as [|x l [y Hy] _ [k Hk]]; [eexists; reflexivity|].
  exists (y :: k). cbn [mapM]. rewrite Hy. cbn [mbind option_bind].
  rewrite Hk. reflexivity.
Qed.

Lemma context_window_total (lines : list str) (context_start context_end : Z) :
  (0 <= context_start)%Z -> (context_end < zlen lines)%Z ->
  is_Some (context_window lines context_start context_end).
Proof.
  intros H1 H2. unfold context_window.
  destruct (mapM_total (fun i => l ← getitem lines i; Some (rstrip_chars l [nl]))
              (range context_start (context_end + 1))) as [k ->]; [|eexists; reflexivity].
  apply List.Forall_forall. intros i Hi. apply range_bounds in Hi.
  destruct (getitem_in_range lines i) as (x & -> & _); [lia|]. eexists; reflexivity.
Qed.

Lemma output_window_total (lines : list str) (n_out idx : Z) :
  (0 <= idx)%Z -> is_Some (output_window lines n_out idx).
Proof.
  intros H. unfold output_window.
  match goal with
  | |- is_Some (mbind _ (mapM ?f ?l)) =>
      destruct (mapM_total f l) as [k ->]; [|eexists; reflexivity]
  end.
  apply List.Forall_forall. intros j Hj. apply filter_In in Hj as [Hj Hlt].
  apply range_bounds in Hj. apply Z.ltb_lt in Hlt.
  destruct (getitem_in_range (code_indices lines) (idx + j)) as (i & -> & Hi); [lia|].
  cbn [mbind option_bind]. apply code_indices_in_range in Hi.
  destruct (getitem_in_range lines i) as (x & -> & _); [lia|]. eexists; reflexivity.
Qed.

(** A turn at a code line of the file raises nothing. *)
Lemma candidate_total (lines : list str) (n_out idx context_len : Z) :
  (0 <= idx < zlen (code_indices lines))%Z ->
  is_Some (candidate lines n_out idx context_len).
Proof.
  intros H. unfold candidate.
  destruct (getitem_in_range (code_indices lines) idx H) as (context_end & -> & Hin).
  cbn [mbind option_bind]. cbv zeta.
  destruct (Z.ltb_spec (context_end - context_len + 1) 0); [eexists; reflexivity|].
  apply code_indices_in_range in Hin.
  destruct (context_window_total lines (context_end - context_len + 1) context_end)
    as [context_lines ->]; [lia|lia|].
  cbn [mbind option_bind].
  destruct (has_invalid_preprocessor_structure _); [eexists; reflexivity|].
  destruct (output_window_total lines n_out idx) as [output_lines ->]; [lia|].
  eexists; reflexivity.
Qed.

(** With [max_output] not negative no turn of the loops raises. *)
Lemma schedule_total (lines : list str) (min_context max_context max_output : Z) :
  (0 <= max_output)%Z ->
  Forall (fun c => is_Some c) (schedule lines min_context max_context max_output).
Proof.
  intros Hm. unfold schedule. apply Forall_app. split.
  - apply List.Forall_forall. intros c Hc.
    apply in_flat_map in Hc as (output_len & Ho & Hc).
    apply in_flat_map in Hc as (idx & Hidx & Hc).
    apply in_map_iff in Hc as (context_len & <- & _).
    apply range_bounds in Hidx. apply candidate_total.
    cbn [In] in Ho. lia.
  - apply List.Forall_forall. intros c Hc.
    apply in_flat_map in Hc as (idx & Hidx & Hc).
    apply in_map_iff in Hc as (context_len & <- & _).
    apply range_step_bounds in Hidx; [|lia]. apply candidate_total. lia.
Qed.

Lemma mapM_id_total {A} (cs : list (option A)) :
  Forall (fun c => is_Some c) cs -> exists cs', cs = map Some cs' /\ mapM id cs = Some cs'.
Proof.
  induction 1 as [|c cs [x ->] _ (cs' & -> & IH)]; [exists []; auto|].
  exists (x :: cs'). split; [reflexivity|].
  cbn [mapM id mbind option_bind].
  rewrite IH. reflexivity.
Qed.

(** The pairs a run that raises nothing emits. *)
Lemma emitted_keys_spec (lines : list str) (min_context max_context max_output : Z) keys :
  emitted_keys lines min_context max_context max_output = Some keys ->
  NoDup keys
  /\ (forall k, k ∈ keys
                <-> Some (Some k) ∈ schedule lines min_context max_context max_output).
Proof.
  unfold emitted_keys. destruct (mapM id _) as [cs|] eqn:E; [|discriminate].
  cbn [mbind option_bind]. intros H. injection H as <-.
  apply mapM_Some in E.
  destruct (fold_emit_agrees cs _ _ agrees_start) as (_ & H2 & _).
  split; [exact H2|]. intros k. rewrite in_fold_emit_key, elem_of_nil.
  split.
  - intros [[]|Hk]. apply list_elem_of_In in Hk.
    clear H2. induction E as [|c c' l l' Hc _ IH]; [destruct Hk|].
    cbn [id] in Hc. subst c. destruct Hk as [-> | Hk].
    + apply list_elem_of_here.
    + apply list_elem_of_further, IH, Hk.
  - intros Hk. right. clear H2. apply list_elem_of_In in Hk. apply list_elem_of_In.
    induction E as [|c c' l l' Hc _ IH]; [destruct Hk|].
    cbn [id] in Hc. subst c. destruct Hk as [Hk | Hk].
    + left. congruence.
    + right. apply IH, Hk.
Qed.

Lemma emitted_keys_total (lines : list str) (min_context max_context max_output : Z) :
  (0 <= max_output)%Z ->
  is_Some (emitted_keys lines min_context max_context max_output).
Proof.
  intros H. unfold emitted_keys.
  destruct (mapM_id_total _ (schedule_total lines min_context max_context max_output H))
    as (cs & _ & ->).
  eexists; reflexivity.
Qed.

Lemma fold_emit_key_none (cs : list (option (str * str))) keys :
  Forall (fun c => c = None) cs -> fold_left emit_key cs keys = keys.
Proof.
  induction 1 as [|c cs -> _ IH]; [reflexivity|]. cbn [fold_left emit_key]. exact IH.
Qed.

Lemma flat_map_nil {A B} (f : A -> list B) (l : list A) :
  Forall (fun x => f x = []) l -> flat_map f l = [].
Proof.
  induction 1 as [|x l Hx _ IH]; [reflexivity|].
  cbn [flat_map]. rewrite Hx, IH. reflexivity.
Qed.

(** The output window of the last code line is empty, so the turn builds
    no pair. *)
Lemma candidate_past_the_end (lines : list str) (n_out idx context_len : Z) :
  (0 <= idx < zlen (code_indices lines))%Z ->
  (zlen (code_indices lines) <= idx + 1)%Z ->
  candidate lines n_out idx context_len = Some None.
Proof.
  intros H Hend. unfold candidate.
  destruct (getitem_in_range (code_indices lines) idx H) as (context_end & -> & Hin).
  cbn [mbind option_bind]. cbv zeta.
  destruct (Z.ltb_spec (context_end - context_len + 1) 0); [reflexivity|].
  apply code_indices_in_range in Hin.
  destruct (context_window_total lines (context_end - context_len + 1) context_end)
    as [context_lines ->]; [lia|lia|].
  cbn [mbind option_bind].
  destruct (has_invalid_preprocessor_structure _); [reflexivity|].
  unfold output_window.
  destruct (List.filter _ (range 1 (n_out + 1))) as [|j rest] eqn:Ef.
  - cbn. rewrite andb_false_r. reflexivity.
  - exfalso. assert (Hj : In j (j :: rest)) by (left; reflexivity).
    rewrite <- Ef in Hj. apply filter_In in Hj as [Hj Hlt].
    apply range_bounds in Hj. apply Z.ltb_lt in Hlt. lia.
Qed.

(** X7: a file with fewer than two code lines gives no pair, for every
    choice of the context bounds and every [max_output] that is not
    negative. *)
Theorem no_pairs_without_two_code_lines
    (lines : list str) (min_context max_context max_output : Z) :
  (0 <= max_output)%Z ->
  (length (code_indices lines) <= 1)%nat ->
  extract_pairs_from_file lines min_context max_context max_output = Some [].
Proof.
  intros Hm H. rewrite extract_pairs_keys. unfold emitted_keys.
  assert (Hz : (zlen (code_indices lines) <= 1)%Z) by (unfold zlen; lia).
  assert (Hn : Forall (fun c => c = Some None)
                 (schedule lines min_context max_context max_output)).
  { unfold schedule. apply Forall_app. split.
    - rewrite flat_map_nil; [constructor|].
      apply List.Forall_forall. intros output_len Ho.
      assert (Hr : range 0 (zlen (code_indices lines) - output_len) = []).
      { unfold range.
        replace (Z.to_nat (zlen (code_indices lines) - output_len - 0)) with 0%nat;
          [reflexivity|].
        cbn [In] in Ho. lia. }
      rewrite Hr. reflexivity.
    - apply List.Forall_forall. intros c Hc.
      apply in_flat_map in Hc as (idx & Hidx & Hc).
      apply in_map_iff in Hc as (context_len & <- & _).
      apply range_step_bounds in Hidx; [|lia].
      apply candidate_past_the_end; lia. }
  destruct (mapM id _) as [cs|] eqn:E.
  - cbn [mbind option_bind fmap option_fmap option_map].
    rewrite fold_emit_key_none; [reflexivity|].
    apply mapM_Some in E. clear -E Hn.
    induction E as [|c c' l l' Hc _ IH]; [constructor|].
    inversion Hn as [|? ? Hc' Hn']; subst. constructor; [|apply IH, Hn'].
    cbn [id] in Hc. congruence.
  - exfalso. destruct (mapM_id_total (schedule lines min_context max_context max_output))
      as (cs & _ & E').
    + eapply Forall_impl; [exact Hn|]. intros c ->. eexists; reflexivity.
    + congruence.
Qed.

Lemma no_pairs_without_two_code_lines_witness :
  extract_pairs_from_file [lit "int x = 5;"] 2 10 2 = Some [].
Proof. apply no_pairs_without_two_code_lines; [lia | vm_compute; lia]. Defined.







(** A file of three code lines. *)
Definition three_lines : list str :=
  [lit "int a;" ++ [nl]; lit "int b;" ++ [nl]; lit "int c;" ++ [nl]].


(** X13: with [max_output] not negative [extract_pairs_from_file] returns
    a list for every file and all context bounds: no index it uses lies
    outside its list.  With [max_output = -1] and a file without code lines
    the second strategy reads [code_indices[0]], an [IndexError]. *)
Theorem extractor_raises_only_below_zero :
  (forall lines min_context max_context max_output,
     (0 <= max_output)%Z ->
     is_Some (extract_pairs_from_file lines min_context max_context max_output))
  /\ extract_pairs_from_file [] 2 10 (-1) = None.
Proof.
  split.
  - intros lines min_context max_context max_output H. rewrite extract_pairs_keys.
    destruct (emitted_keys_total lines min_context max_context max_output H) as [keys ->].
    eexists; reflexivity.
  - rewrite extract_pairs_keys. vm_compute. reflexivity.
Qed.

Lemma extractor_raises_only_below_zero_witness :
  is_Some (extract_pairs_from_file three_lines 2 10 2).
Proof. apply (proj1 extractor_raises_only_below_zero). lia. Defined.

End ExtractorWindows.

(** * Reading back what the Pair Extractor wrote *)

Section MarkerSearch.

(** No occurrence of [marker] starts inside [p] when [p] is followed by
    [rest]. *)
Fixpoint no_start (marker p rest : str) : bool :=
  match p with
  | [] => true
  | _ :: p' => negb (startswith (p ++ rest) marker) && no_start marker p' rest
  end.

(** [b] and [marker] differ at a position both have. *)
Fixpoint clash (b marker : str) : bool :=
  match b, marker with
  | x :: b', y :: marker' => negb (Ascii.eqb y x) || clash b' marker'
  | _, _ => false
  end.

Fixpoint all_clash (marker p : str) : bool :=
  match p with
  | [] => true
  | _ :: p' => clash p marker && all_clash marker p'
  end.

Lemma clash_startswith (marker b rest : str) :
  clash b marker = true -> startswith (b ++ rest) marker = false.
Proof.
  revert b. induction marker as [|y marker IH]; intros b H.
  - destruct b; discriminate.
  - destruct b as [|x b]; [discriminate|].
    cbn [clash] in H. cbn [app startswith].
    destruct (Ascii.eqb y x); [|reflexivity].
    cbn [negb orb andb] in *. apply IH, H.
Qed.

Lemma all_clash_no_start (marker p rest : str) :
  all_clash marker p = true -> no_start marker p rest = true.
Proof.
  induction p as [|c p IH]; [reflexivity|].
  cbn [all_clash no_start]. intros H. apply andb_true_iff in H as [H1 H2].
  rewrite (clash_startswith _ _ _ H1), (IH H2). reflexivity.
Qed.

Lemma no_start_app (marker p q rest : str) :
  no_start marker (p ++ q) rest = no_start marker p (q ++ rest) && no_start marker q rest.
Proof.
  induction p as [|c p IH]; [reflexivity|].
  cbn [app no_start]. rewrite IH, <- !app_assoc, andb_assoc. reflexivity.
Qed.

(** A text without the character [a] that starts [b ++ a :: t] starts [b]. *)
Lemma startswith_before (marker' b t : str) (a : ascii) :
  mem_char marker' a = false ->
  startswith (b ++ a :: t) marker' = true -> startswith b marker' = true.
Proof.
  revert b. induction marker' as [|x marker' IH]; intros b Hm H; [reflexivity|].
  cbn [mem_char existsb] in Hm. apply orb_false_iff in Hm as [Hx Hm].
  destruct b as [|c b]; cbn [app startswith] in *.
  - apply andb_true_iff in H as [H _]. rewrite Ascii.eqb_sym in H. congruence.
  - apply andb_true_iff in H as [H1 H2]. rewrite H1. cbn [andb].
    apply (IH b Hm H2).
Qed.

(** A marker whose first character occurs in it once only cannot start
    inside a text that does not hold it, whatever follows the text after
    that character. *)
Lemma no_start_of_contains (marker' p t : str) (a : ascii) :
  mem_char marker' a = false -> contains (a :: marker') p = false ->
  no_start (a :: marker') p (a :: t) = true.
Proof.
  intros Hm. induction p as [|c p IH]; [reflexivity|].
  cbn [contains no_start]. intros H. apply orb_false_iff in H as [H1 H2].
  rewrite (IH H2), andb_true_r. apply negb_true_iff.
  destruct (startswith ((c :: p) ++ a :: t) (a :: marker')) eqn:E; [|reflexivity].
  cbn [app startswith] in E, H1. apply andb_true_iff in E as [E1 E2].
  rewrite E1, (startswith_before _ _ _ _ Hm E2) in H1. discriminate.
Qed.

Lemma startswith_self (marker rest : str) : startswith (marker ++ rest) marker = true.
Proof.
  induction marker as [|a marker IH]; [reflexivity|].
  cbn [app startswith]. rewrite Ascii.eqb_refl. exact IH.
Qed.

Context {R : Type}.

Lemma rep_lazy_skip (marker : str) (k : option ascii -> str -> option R) :
  (forall prev s, startswith s marker = false -> k prev s = None) ->
  forall p prev rest,
    no_start marker p rest = true ->
    rep_lazy any prev (p ++ rest) k = rep_lazy any (lastp prev p) rest k.
Proof.
  intros Hk. induction p as [|c p IH]; intros prev rest H; [reflexivity|].
  cbn [no_start] in H. apply andb_true_iff in H as [H1 H2].
  apply negb_true_iff in H1.
  cbn [app rep_lazy]. cbn [app] in H1. rewrite (Hk _ _ H1).
  unfold any at 1. rewrite (IH _ _ H2), lastp_cons. reflexivity.
Qed.

End MarkerSearch.

Section RoundTrip.
Import ExtractNextlinePairs.

(** The lazy group followed by a marker captures the text before the
    first occurrence of the marker. *)
Lemma lazy_group_until (marker p t : str) prev cap :
  no_start marker p (marker ++ t) = true ->
  exec (Cat (Grp (Lazy any)) (Lit marker)) prev (p ++ marker ++ t) cap accept
  = Some (Some p).
Proof.
  intros H. cbn [exec Lazy].
  rewrite (rep_lazy_ext any _
             (fun _ s' => if startswith s' marker
                          then Some (Some (take (length (p ++ marker ++ t) - length s')
                                                (p ++ marker ++ t)))
                          else None)).
  - rewrite (rep_lazy_skip marker); [| |exact H].
    + destruct (marker ++ t) as [|c s] eqn:E; cbn [rep_lazy].
      * destruct marker; [|discriminate]. cbn [startswith].
        rewrite app_nil_r, Nat.sub_0_r, firstn_all. reflexivity.
      * rewrite <- E, startswith_self.
        rewrite length_app, Nat.add_sub, take_app_length. reflexivity.
    + intros prev' s Hs. rewrite Hs. reflexivity.
  - intros prev' s'. rewrite exec_lit. unfold accept.
    destruct (startswith s' marker); reflexivity.
Qed.

(** The search stops at the first occurrence of the marker when the rest
    of the pattern matches there. *)
Lemma search_from_hit (r : regex) prev (s : str) (m : match_obj) :
  exec r prev s None accept = Some m -> search_from r prev s = Some m.
Proof. intros H. destruct s; cbn [search_from]; rewrite H; reflexivity. Qed.

Lemma search_marker_at (marker pre x : str) (tail : regex) (m : match_obj) :
  forall prev,
    no_start marker pre (marker ++ x) = true ->
    exec tail (lastp (lastp prev pre) marker) x None accept = Some m ->
    search_from (Cat (Lit marker) tail) prev (pre ++ marker ++ x) = Some m.
Proof.
  induction pre as [|c pre IH]; intros prev H Hx.
  - cbn [app]. apply search_from_hit. cbn [exec].
    rewrite exec_lit, startswith_self, drop_app_length. exact Hx.
  - cbn [no_start] in H. apply andb_true_iff in H as [H1 H2].
    apply negb_true_iff in H1. cbn [app] in H1 |- *.
    cbn [search_from exec]. rewrite exec_lit, H1.
    apply IH; [exact H2|]. rewrite lastp_cons in Hx. exact Hx.
Qed.

Definition fim_prefix_marker : str := lit "<fim_prefix>".
Definition fim_suffix_marker : str := lit "<fim_suffix>".

Lemma fim_content_markers (prefix middle : str) :
  fim_content prefix middle
  = fim_prefix_marker ++ prefix ++ fim_suffix_marker ++ fim_middle_marker ++ middle.
Proof. unfold fim_content. reflexivity. Qed.

Section Pair.
Variables prefix middle : str.
Hypothesis no_suffix_marker : contains fim_suffix_marker prefix = false.
Hypothesis no_middle_marker : contains fim_middle_marker prefix = false.

Lemma search_prefix_group :
  re_search (Cat (Lit fim_prefix_marker) (Cat (Grp (Lazy any)) (Lit fim_suffix_marker)))
            (fim_content prefix middle)
  = Some (Some prefix).
Proof.
  rewrite fim_content_markers. unfold re_search.
  apply (search_marker_at fim_prefix_marker []); [reflexivity|].
  apply lazy_group_until.
  apply (no_start_of_contains (lit "fim_suffix>") prefix _ "<"%char);
    [reflexivity | exact no_suffix_marker].
Qed.

Lemma search_suffix_group :
  re_search (Cat (Lit fim_suffix_marker) (Cat (Grp (Lazy any)) (Lit fim_middle_marker)))
            (fim_content prefix middle)
  = Some (Some []).
Proof.
  rewrite fim_content_markers. unfold re_search. rewrite (app_assoc _ prefix).
  apply search_marker_at.
  - rewrite no_start_app. apply andb_true_iff. split.
    + apply all_clash_no_start. reflexivity.
    + apply (no_start_of_contains (lit "fim_suffix>") prefix _ "<"%char);
        [reflexivity | exact no_suffix_marker].
  - apply (lazy_group_until fim_middle_marker []). reflexivity.
Qed.

Lemma after_first_middle_marker :
  forall prev (tail : regex) (m : match_obj),
    exec tail (lastp (lastp prev (fim_prefix_marker ++ prefix ++ fim_suffix_marker))
                     fim_middle_marker) middle None accept = Some m ->
    search_from (Cat (Lit fim_middle_marker) tail) prev (fim_content prefix middle) = Some m.
Proof.
  intros prev tail m H. rewrite fim_content_markers.
  rewrite (app_assoc prefix), (app_assoc fim_prefix_marker).
  apply search_marker_at; [|exact H].
  rewrite !no_start_app. apply andb_true_iff; split; [|apply andb_true_iff; split].
  - apply all_clash_no_start. reflexivity.
  - apply (no_start_of_contains (lit "fim_middle>") prefix _ "<"%char);
      [reflexivity | exact no_middle_marker].
  - apply all_clash_no_start. reflexivity.
Qed.

Lemma search_middle_group :
  re_search (Cat (Lit fim_middle_marker) (Cat (Grp (Lazy any)) Eol))
            (fim_content prefix middle)
  = Some (Some (chomp middle)).
Proof. apply after_first_middle_marker, exec_group_eol. Qed.

End Pair.

(** X9: Phase 1 and the Composite Scorer read back from the content the
    Pair Extractor writes for a prefix and a middle exactly that prefix, an
    empty suffix and that middle, and Phase 3 reads the stripped prefix,
    when the prefix holds neither the suffix marker nor the middle marker
    and the middle does not end with a newline. *)
Theorem stages_read_back_the_extractor_pair (prefix middle : str) :
  contains "<fim_suffix>" prefix = false ->
  contains "<fim_middle>" prefix = false ->
  endswith middle [nl] = false ->
  FilterQualityFimTasks.extract_fim_parts (fim_content prefix middle)
  = <[ "middle"%string := middle ]>
      (<[ "suffix"%string := [] ]> (<[ "prefix"%string := prefix ]> ∅))
  /\ CalculateComprehensiveQualityScores.extract_fim_parts (fim_content prefix middle)
     = <[ "middle"%string := middle ]>
         (<[ "suffix"%string := [] ]> (<[ "prefix"%string := prefix ]> ∅))
  /\ (ApplyPhase3bImprovedFilter.extract_fim_components
        (JStr (fim_content prefix middle))).1 = strip prefix.
Proof.
  intros Hs Hm Hnl.
  pose proof (search_prefix_group prefix middle Hs) as E1.
  pose proof (search_suffix_group prefix middle Hs) as E2.
  pose proof (search_middle_group prefix middle Hm) as E3.
  rewrite (chomp_id _ Hnl) in E3.
  split; [|split].
  - unfold FilterQualityFimTasks.extract_fim_parts. cbv zeta.
    change FilterQualityFimTasks.fim_prefix_re
      with (Cat (Lit fim_prefix_marker) (Cat (Grp (Lazy any)) (Lit fim_suffix_marker))).
    change FilterQualityFimTasks.fim_suffix_re
      with (Cat (Lit fim_suffix_marker) (Cat (Grp (Lazy any)) (Lit fim_middle_marker))).
    change FilterQualityFimTasks.fim_middle_re
      with (Cat (Lit fim_middle_marker) (Cat (Grp (Lazy any)) Eol)).
    rewrite E1, E2, E3. reflexivity.
  - unfold CalculateComprehensiveQualityScores.extract_fim_parts. cbv zeta.
    change CalculateComprehensiveQualityScores.fim_prefix_re
      with (Cat (Lit fim_prefix_marker) (Cat (Grp (Lazy any)) (Lit fim_suffix_marker))).
    change CalculateComprehensiveQualityScores.fim_suffix_re
      with (Cat (Lit fim_suffix_marker) (Cat (Grp (Lazy any)) (Lit fim_middle_marker))).
    change CalculateComprehensiveQualityScores.fim_middle_re
      with (Cat (Lit fim_middle_marker) (Cat (Grp (Lazy any)) Eol)).
    rewrite E1, E2, E3. reflexivity.
  - unfold ApplyPhase3bImprovedFilter.extract_fim_components. cbv zeta. cbn [fst].
    change ApplyPhase3bImprovedFilter.fim_prefix_re
      with (Cat (Lit fim_prefix_marker) (Cat (Grp (Lazy any)) (Lit fim_suffix_marker))).
    rewrite E1. reflexivity.
Qed.

Lemma stages_read_back_the_extractor_pair_witness :
  FilterQualityFimTasks.extract_fim_parts
    (fim_content (lit "std::vector<int> v;") (lit "v.push_back(1);"))
  = <[ "middle"%string := lit "v.push_back(1);" ]>
      (<[ "suffix"%string := [] ]> (<[ "prefix"%string := lit "std::vector<int> v;" ]> ∅))
  /\ CalculateComprehensiveQualityScores.extract_fim_parts
       (fim_content (lit "std::vector<int> v;") (lit "v.push_back(1);"))
     = <[ "middle"%string := lit "v.push_back(1);" ]>
         (<[ "suffix"%string := [] ]> (<[ "prefix"%string := lit "std::vector<int> v;" ]> ∅))
  /\ (ApplyPhase3bImprovedFilter.extract_fim_components
        (JStr (fim_content (lit "std::vector<int> v;") (lit "v.push_back(1);")))).1
     = strip (lit "std::vector<int> v;").
Proof.
  apply stages_read_back_the_extractor_pair; vm_compute; reflexivity.
Defined.

End RoundTrip.

(** * What the filters accept *)

Section Phase1Acceptance.
Import FilterQualityFimTasks.

#[local] Set Warnings "-inexact-float".

(** The two bonuses of the Phase-1 score that look for words in the middle,
    and the bands of its stripped length. *)
Definition domain_bonus (middle : str) : bool :=
  contains "tbricks" (lower middle) || found (re_search tb_re middle).

Definition construct_bonus (middle : str) : bool :=
  any_in (map lit ["class"; "struct"; "namespace"; "public:"; "private:";
                   "virtual"; "const"]) middle.

Definition in_band (lo hi : nat) (middle : str) : bool :=
  (lo <=? len (strip middle))%nat && (len (strip middle) <=? hi)%nat.

(** When the score reaches one half. *)
Definition accepts_at_half (parts : gmap string str) : bool :=
  let prefix := get parts "prefix" in
  let middle := get parts "middle" in
  starts_with_complete_code_line prefix
  && (is_meaningful_code_completion middle prefix
      || in_band 10 200 middle && (domain_bonus middle || construct_bonus middle)
      || in_band 5 300 middle && domain_bonus middle && construct_bonus middle).

Ltac hide_length_tests :=
  repeat match goal with
         | |- context [Nat.leb ?a ?b] => generalize (Nat.leb a b); intro
         | |- context [Nat.ltb ?a ?b] => generalize (Nat.ltb a b); intro
         end.

Lemma score_reaches_half (parts : gmap string str) :
  ge (calculate_quality_score parts) 0.5%float = accepts_at_half parts.
Proof.
  unfold calculate_quality_score, accepts_at_half, in_band, domain_bonus, construct_bonus.
  rewrite phase1_flow_true. cbv zeta.
  destruct (starts_with_complete_code_line _); [|reflexivity].
  destruct (is_meaningful_code_completion _ _);
    destruct (contains _ _ || found _); destruct (any_in _ _);
    hide_length_tests;
    repeat match goal with b : bool |- _ => destruct b end;
    vm_compute; reflexivity.
Qed.

Definition has_prefix_and_middle (parts : gmap string str) : bool :=
  forallb (fun key => bool_decide (is_Some (parts !! key))) ["prefix"; "middle"]%string.

(** X10: at the threshold 0.5 Phase 1 keeps a record exactly when its
    content is a string with a prefix and a middle, the prefix passes the
    complete-line check, and the middle is a meaningful completion, or has a
    stripped length of 10 to 200 with the domain or the construct bonus, or
    of 5 to 300 with both. *)
Theorem phase1_acceptance_rule (task : record) :
  accepted (filter_record 0.5%float task)
  = match get_content task with
    | JStr content =>
        has_prefix_and_middle (extract_fim_parts content)
        && accepts_at_half (extract_fim_parts content)
    | _ => false
    end.
Proof.
  unfold filter_record, has_prefix_and_middle.
  destruct (get_content task); try reflexivity.
  destruct (forallb _ _); [|reflexivity]. cbn [negb andb]. cbv zeta.
  rewrite score_reaches_half.
  destruct (accepts_at_half _); reflexivity.
Qed.

Lemma meaningful_is_long (middle prefix : str) :
  is_meaningful_code_completion middle prefix = true -> (5 <= len (strip middle))%nat.
Proof.
  unfold is_meaningful_code_completion.
  destruct (negb (truthy middle) || negb (truthy (strip middle))); [discriminate|].
  cbv zeta. destruct (Nat.ltb_spec (len (strip middle)) 5); [discriminate|].
  intros _. assumption.
Qed.

(** X11: a record Phase 1 keeps at the threshold 0.5 has a prefix that
    passes the complete-line check and a middle of at least 5 characters
    once stripped. *)
Theorem phase1_survivors_have_a_middle (task task' : record) :
  filter_record 0.5%float task = Some task' ->
  exists content,
    get_content task = JStr content
    /\ starts_with_complete_code_line (get (extract_fim_parts content) "prefix") = true
    /\ (5 <= len (strip (get (extract_fim_parts content) "middle")))%nat.
Proof.
  intros H. pose proof (phase1_acceptance_rule task) as E. rewrite H in E.
  cbn [accepted] in E.
  destruct (get_content task) as [| | | |content| |]; try discriminate.
  exists content. split; [reflexivity|].
  symmetry in E. apply andb_true_iff in E as [_ E].
  unfold accepts_at_half in E. cbv zeta in E.
  apply andb_true_iff in E as [E1 E2]. split; [exact E1|].
  apply orb_true_iff in E2 as [E2 | E2]; [apply orb_true_iff in E2 as [E2 | E2]|].
  - eapply meaningful_is_long, E2.
  - apply andb_true_iff in E2 as [E2 _]. unfold in_band in E2.
    apply andb_true_iff in E2 as [E2 _]. apply Nat.leb_le in E2. lia.
  - apply andb_true_iff in E2 as [E2 _]. apply andb_true_iff in E2 as [E2 _].
    unfold in_band in E2.
    apply andb_true_iff in E2 as [E2 _]. apply Nat.leb_le in E2. exact E2.
Qed.

Lemma phase1_survivors_have_a_middle_witness :
  exists content,
    get_content sample_record = JStr content
    /\ starts_with_complete_code_line (get (extract_fim_parts content) "prefix") = true
    /\ (5 <= len (strip (get (extract_fim_parts content) "middle")))%nat.
Proof.
  destruct (accepted_Some _ sample_passes_phase1) as [task' E].
  exact (phase1_survivors_have_a_middle sample_record task' E).
Defined.

End Phase1Acceptance.

Section Phase2Annotations.
Import ApplyMiddleContentFilter.

#[local] Set Warnings "-inexact-float".

Ltac hide_length_tests :=
  repeat match goal with
         | |- context [Nat.leb ?a ?b] => generalize (Nat.leb a b); intro
         | |- context [Nat.ltb ?a ?b] => generalize (Nat.ltb a b); intro
         end.

Ltac split_on_tests :=
  repeat match goal with
         | |- context [if ?b then _ else _] => destruct b
         end.

Lemma accepted_middle_reason (middle_content reason : str) :
  should_reject_middle middle_content = (false, reason) ->
  reason = lit "acceptable"
  /\ truthy middle_content = true
  /\ found (re_match pure_symbols_re (strip middle_content)) = false.
Proof.
  unfold should_reject_middle. cbv zeta.
  destruct (truthy middle_content); [|discriminate]. cbn [negb].
  destruct (endswith (strip middle_content) ","); [discriminate|].
  destruct (found (re_match access_specifier_re _)); [discriminate|].
  destruct (len (strip middle_content) <=? 2)%nat; [discriminate|].
  destruct (found (re_match pure_symbols_re _)); [discriminate|].
  destruct (_ && _); [discriminate|].
  intros H. injection H as <-. auto.
Qed.

Lemma impure_middle_score (middle_content : str) :
  truthy middle_content = true ->
  found (re_match pure_symbols_re (strip middle_content)) = false ->
  le 0.6%float (calculate_middle_quality_score middle_content) = true
  /\ le (calculate_middle_quality_score middle_content) 0.9500000000000001%float = true.
Proof.
  intros Ht Hp. unfold calculate_middle_quality_score. rewrite Ht. cbn [negb].
  cbv zeta. rewrite Hp. hide_length_tests.
  split_on_tests; vm_compute; split; reflexivity.
Qed.

(** X12: a record Phase 2 keeps is the given record with three more
    fields: the phase tag, the reason [acceptable] and a middle score that
    lies between 0.6 and 0.95; every other field is as it was. *)
Theorem phase2_kept_record_annotations (data data' : record) :
  filter_record data = Some data' ->
  data' !! "quality_phase2"%string = Some (JStr "passed_middle_content_filter")
  /\ data' !! "quality_middle_reason"%string = Some (JStr "acceptable")
  /\ (exists score,
        data' !! "quality_middle_score"%string = Some (JFloat score)
        /\ le 0.6%float score = true /\ le score 0.9500000000000001%float = true)
  /\ (forall key,
        key ∉ ["quality_phase2"; "quality_middle_reason"; "quality_middle_score"]%string ->
        data' !! key = data !! key).
Proof.
  unfold filter_record. cbv zeta.
  destruct (should_reject_middle _) as [reject reason] eqn:E.
  destruct reject; [discriminate|]. intros H. injection H as <-.
  apply accepted_middle_reason in E as (-> & Ht & Hp).
  split; [|split; [|split]].
  - rewrite !lookup_insert_ne by discriminate. apply lookup_insert_eq.
  - rewrite lookup_insert_ne by discriminate. apply lookup_insert_eq.
  - eexists. split; [apply lookup_insert_eq|]. apply impure_middle_score; assumption.
  - intros key Hk. rewrite !not_elem_of_cons in Hk. destruct Hk as (H1 & H2 & H3 & _).
    rewrite !lookup_insert_ne by congruence. reflexivity.
Qed.

Lemma phase2_kept_record_annotations_witness :
  exists data',
    filter_record sample_record = Some data'
    /\ data' !! "quality_middle_reason"%string = Some (JStr "acceptable").
Proof.
  destruct (accepted_Some _ sample_passes_phase2) as [data' E].
  exists data'. split; [exact E|].
  apply (phase2_kept_record_annotations sample_record data' E).
Defined.

End Phase2Annotations.

(** * Deduplication in the Pair Extractor (C3) *)

Section EmittedRecords.
Import ExtractNextlinePairs.

(** The text of [s] before the first occurrence of [marker]. *)
Fixpoint before (marker s : str) : str :=
  match s with
  | [] => []
  | c :: s' => if startswith s marker then [] else c :: before marker s'
  end.

Lemma before_first (marker p rest : str) :
  no_start marker p rest = true -> startswith rest marker = true ->
  before marker (p ++ rest) = p.
Proof.
  intros Hp Hr. induction p as [|c p IH].
  - cbn [app]. destruct rest as [|c rest]; [reflexivity|].
    cbn [before]. rewrite Hr. reflexivity.
  - cbn [no_start] in Hp. apply andb_true_iff in Hp as [H1 H2].
    apply negb_true_iff in H1. cbn [app before]. cbn [app] in H1. rewrite H1.
    rewrite (IH H2). reflexivity.
Qed.

(** A prefix without the text [<fim_suffix>] can be read back from the
    content, and the middle with it. *)
Lemma fim_content_inj (p m p' m' : str) :
  contains fim_suffix_marker p = false -> contains fim_suffix_marker p' = false ->
  fim_content p m = fim_content p' m' -> (p, m) = (p', m').
Proof.
  intros Hp Hp' E. rewrite !fim_content_markers in E.
  apply app_inv_head in E.
  assert (B : forall q t, contains fim_suffix_marker q = false ->
                before fim_suffix_marker (q ++ fim_suffix_marker ++ t) = q).
  { intros q t Hq. apply before_first; [|apply startswith_self].
    apply (no_start_of_contains (lit "fim_suffix>") q _ "<"%char); [reflexivity|exact Hq]. }
  pose proof (f_equal (before fim_suffix_marker) E) as Eb.
  rewrite !B in Eb by assumption. subst p'.
  apply app_inv_head in E. apply app_inv_head in E. apply app_inv_head in E.
  subst m'. reflexivity.
Qed.

(** The record of a pair, written out. *)
Definition content_record (pair_tuple : str * str) : record :=
  {[ "content"%string :=
       JStr (lit "<fim_prefix>" ++ pair_tuple.1
             ++ lit "<fim_suffix><fim_middle>" ++ pair_tuple.2) ]}.

Definition marker_free (pair_tuple : str * str) : Prop :=
  contains (lit "<fim_suffix>") pair_tuple.1 = false.

Lemma content_record_inj (k k' : str * str) :
  marker_free k -> marker_free k' -> content_record k = content_record k' -> k = k'.
Proof.
  destruct k as [p m], k' as [p' m']. unfold marker_free, content_record. cbn [fst snd].
  intros Hp Hp' E.
  pose proof (f_equal (fun r : record =>
                         match r !! "content"%string with
                         | Some (JStr s) => s
                         | _ => []
                         end) E) as E'.
  cbn beta in E'. rewrite !lookup_singleton_eq in E'.
  apply fim_content_inj; [exact Hp|exact Hp'|exact E'].
Qed.

(** A file in which a line holds the text of the markers: the windows that
    end before and after that line give two pairs with one content. *)
Definition marker_file : list str :=
  [ [nl];
    lit "int a;" ++ [nl];
    lit "int b;<fim_suffix><fim_middle>int c;" ++ [nl];
    [nl];
    lit "int a;<fim_suffix><fim_middle>int b;" ++ [nl];
    lit "int c;" ++ [nl] ].

Definition marker_record : record :=
  {[ "content"%string :=
       JStr (lit "<fim_prefix>int a;<fim_suffix><fim_middle>int b;<fim_suffix><fim_middle>int c;") ]}.

(** A file with the same three lines twice. *)
Definition twin_file : list str :=
  [ lit "x = 1;" ++ [nl]; lit "y = 2;" ++ [nl]; lit "z = 3;" ++ [nl];
    lit "x = 1;" ++ [nl]; lit "y = 2;" ++ [nl]; lit "z = 3;" ++ [nl] ].

Definition twin_pair : str * str :=
  (lit "x = 1;" ++ [nl] ++ lit "y = 2;", lit "z = 3;").

(** The pairs the loops emit for [marker_file], evaluated. *)
Definition marker_file_keys : list (str * str) :=
  Eval vm_compute in
    match emitted_keys marker_file 2 10 2 with
    | Some keys => keys
    | None => []
    end.

(** C3, counterexample: the Pair Extractor emits two records with the same
    content for [marker_file], the first and the third. *)
Lemma marker_text_gives_equal_records :
  exists pairs,
    extract_pairs marker_file = Some pairs
    /\ pairs !! 0%nat = Some marker_record
    /\ pairs !! 2%nat = Some marker_record.
Proof.
  unfold extract_pairs. rewrite extract_pairs_keys.
  assert (E : emitted_keys marker_file 2 10 2 = Some marker_file_keys)
    by (vm_compute; reflexivity).
  rewrite E. exists (map fim_record marker_file_keys).
  split; [reflexivity|]. split; vm_compute; reflexivity.
Qed.

(** C3: when [max_output] is not negative the Pair Extractor returns, for
    one file, the records [{content: <fim_prefix>P<fim_suffix><fim_middle>M}]
    of a list of pairwise distinct (prefix, middle) pairs; the pairs are
    exactly those of the candidates that pass the checks of a turn of either
    strategy, so that a pair two windows produce has one record; and the
    records are pairwise distinct when no prefix holds the text
    [<fim_suffix>]. *)
Theorem extractor_emits_each_pair_once
    (lines : list str) (min_context max_context max_output : Z) :
  (0 <= max_output)%Z ->
  exists keys : list (str * str),
    extract_pairs_from_file lines min_context max_context max_output
      = Some (map content_record keys)
    /\ NoDup keys
    /\ (forall k, k ∈ keys
                  <-> Some (Some k) ∈ schedule lines min_context max_context max_output)
    /\ (forall k, Some (Some k) ∈ schedule lines min_context max_context max_output ->
                  exists i, keys !! i = Some k
                            /\ forall j, keys !! j = Some k -> j = i)
    /\ (Forall marker_free keys -> NoDup (map content_record keys)).
Proof.
  intros Hm.
  destruct (emitted_keys_total lines min_context max_context max_output Hm) as [keys E].
  exists keys. rewrite extract_pairs_keys, E.
  apply emitted_keys_spec in E as [Hn Hk].
  split; [reflexivity|]. split; [exact Hn|]. split; [exact Hk|]. split.
  - intros k Hs. apply Hk in Hs. apply list_elem_of_lookup in Hs as [i Hi].
    exists i. split; [exact Hi|]. intros j Hj.
    eapply NoDup_lookup; eassumption.
  - intros Hf. apply (NoDup_fmap_2_strong content_record); [|exact Hn].
    intros k k' Hin Hin' Eq.
    rewrite Forall_forall in Hf. apply content_record_inj; auto.
Qed.

Lemma extractor_emits_each_pair_once_witness :
  exists (keys : list (str * str)) (i : nat),
    extract_pairs_from_file twin_file 2 10 2 = Some (map content_record keys)
    /\ NoDup keys
    /\ keys !! i = Some twin_pair
    /\ forall j, keys !! j = Some twin_pair -> j = i.
Proof.
  destruct (extractor_emits_each_pair_once twin_file 2 10 2) as (keys & E & Hn & _ & U & _);
    [lia|].
  destruct (U twin_pair) as (i & Hi & Hu).
  { apply (bool_decide_unpack _). vm_compute. exact I. }
  exists keys, i. auto.
Defined.

End EmittedRecords.

(** * The preprocessor balance checker (C2) *)

Section PreprocessorBalance.
Import ExtractNextlinePairs.

(** The directive the scan takes a line for. *)
Definition scanned_as (line : str) : directive :=
  let stripped := strip line in
  if startswith stripped "#" then
    if found (re_match if_re stripped) then Opener
    else if startswith stripped "#else" then Else
    else if startswith stripped "#elif" then Elif
    else if startswith stripped "#endif" then Endif
    else Other
  else Other.

(** One line of the scan. *)
Lemma scan_step (stack : list str) (line : str) (rest : list str) :
  scan_preprocessor stack (line :: rest) =
  match scanned_as line with
  | Opener => scan_preprocessor (stack ++ [lit "if"]) rest
  | Else | Elif => if negb (truthy stack) then true else scan_preprocessor stack rest
  | Endif => if negb (truthy stack) then true
             else scan_preprocessor (removelast stack) rest
  | Other => scan_preprocessor stack rest
  end.
Proof.
  cbn [scan_preprocessor]. unfold scanned_as. cbv zeta.
  destruct (startswith (strip line) "#"); [|reflexivity].
  destruct (found _); [reflexivity|].
  destruct (startswith (strip line) "#else"); [reflexivity|].
  destruct (startswith (strip line) "#elif"); [reflexivity|].
  destruct (startswith (strip line) "#endif"); reflexivity.
Qed.

(** [orphaned], for a scan that starts with [n] openers on the stack. *)
Definition orphaned_from (n : nat) (ds : list directive) : Prop :=
  exists pre d post, ds = pre ++ d :: post /\ closer d /\ depth_after n pre = 0.

Lemma orphaned_from_nil n : ~ orphaned_from n [].
Proof. intros (pre & d & post & E & _). destruct pre; discriminate. Qed.

Lemma orphaned_from_cons n d ds :
  orphaned_from n (d :: ds) <->
  (closer d /\ n = 0) \/ orphaned_from (depth_after n [d]) ds.
Proof.
  split.
  - intros (pre & d' & post & E & Hc & Hd). destruct pre as [|x pre].
    + simpl in E. inversion E; subst. left. auto.
    + simpl in E. inversion E; subst. right. exists pre, d', post.
      split; [reflexivity|]. split; [exact Hc|].
      destruct x; exact Hd.
  - intros [[Hc ->] | (pre & d' & post & -> & Hc & Hd)].
    + exists [], d, ds. auto.
    + exists (d :: pre), d', post. split; [reflexivity|]. split; [exact Hc|].
      destruct d; exact Hd.
Qed.

Lemma length_removelast {A} (l : list A) : length (removelast l) = pred (length l).
Proof.
  induction l as [|x l IH]; [reflexivity|].
  destruct l as [|y l]; [reflexivity|].
  change (removelast (x :: y :: l)) with (x :: removelast (y :: l)).
  simpl length in *. rewrite IH. reflexivity.
Qed.

Lemma scan_orphaned (context_lines : list str) :
  forall stack,
    scan_preprocessor stack context_lines = true <->
    orphaned_from (length stack) (map scanned_as context_lines).
Proof.
  induction context_lines as [|line rest IH]; intros stack.
  - simpl. split; [discriminate|]. intros H. destruct (orphaned_from_nil _ H).
  - rewrite scan_step. cbn [map]. rewrite orphaned_from_cons.
    destruct (scanned_as line); cbn [depth_after].
    + rewrite IH, length_app. simpl. rewrite Nat.add_1_r.
      split; [auto|]. intros [[[H|[H|H]] _] | H]; try discriminate. exact H.
    + destruct stack as [|x stack]; simpl.
      * split; [intros _; left; unfold closer; auto | reflexivity].
      * rewrite IH. simpl. split; [auto|]. intros [[_ H] | H]; [discriminate|exact H].
    + destruct stack as [|x stack]; simpl.
      * split; [intros _; left; unfold closer; auto | reflexivity].
      * rewrite IH. simpl. split; [auto|]. intros [[_ H] | H]; [discriminate|exact H].
    + destruct stack as [|x stack]; cbn [truthy negb].
      * split; [intros _; left; unfold closer; auto | reflexivity].
      * rewrite IH, length_removelast.
        split; [auto|]. intros [[_ H] | H]; [discriminate|exact H].
    + rewrite IH. split; [auto|]. intros [[[H|[H|H]] _] | H]; try discriminate. exact H.
Qed.

Lemma depth_after_no_opener (ds : list directive) :
  Forall (fun d => d <> Opener) ds -> depth_after 0 ds = 0.
Proof.
  induction 1 as [|d ds Hd _ IH]; [reflexivity|].
  destruct d; simpl; try exact IH. congruence.
Qed.

Lemma no_closer_not_orphaned (ds : list directive) :
  Forall (fun d => ~ closer d) ds -> ~ orphaned ds.
Proof.
  intros H (pre & d & post & -> & Hc & _).
  apply Forall_app in H as [_ H]. inversion H; subst. contradiction.
Qed.

(** ** The opener pattern and the name of the directive *)

Lemma str_eqb_cons (c x : ascii) (s w : str) :
  str_eqb (c :: s) (x :: w) = Ascii.eqb x c && str_eqb s w.
Proof.
  unfold str_eqb. apply eq_true_iff_eq.
  rewrite andb_true_iff, !bool_decide_eq_true, Ascii.eqb_eq.
  split; [intros [= -> ->]; auto | intros [-> ->]; reflexivity].
Qed.

Lemma word_not_space (c : ascii) : word c = true -> isspace c = false.
Proof.
  destruct c as [[] [] [] [] [] [] [] []]; vm_compute; intros H;
    first [reflexivity | discriminate].
Qed.

(** The name is a given word exactly when the text starts with the word and
    no word character follows. *)
Lemma word_at_is (w : str) : forall r,
  forallb word w = true ->
  str_eqb (word_at r) w = startswith r w && negb (is_word (head (drop (length w) r))).
Proof.
  induction w as [|x w IH]; intros r Hw.
  - destruct r as [|c r]; [reflexivity|]. cbn [word_at length drop head is_word startswith].
    destruct (word c); reflexivity.
  - cbn [forallb] in Hw. apply andb_true_iff in Hw as [Hx Hw].
    destruct r as [|c r]; [reflexivity|].
    cbn [word_at startswith length drop]. destruct (word c) eqn:Hc.
    + rewrite str_eqb_cons, IH by exact Hw. apply andb_assoc.
    + destruct (Ascii.eqb_spec x c) as [-> | _]; [congruence|]. reflexivity.
Qed.

Lemma startswith_word_at (w : str) : forall r,
  forallb word w = true -> startswith (word_at r) w = startswith r w.
Proof.
  induction w as [|x w IH]; intros r Hw; [reflexivity|].
  cbn [forallb] in Hw. apply andb_true_iff in Hw as [Hx Hw].
  destruct r as [|c r]; [reflexivity|].
  cbn [word_at]. destruct (word c) eqn:Hc.
  - cbn [startswith]. rewrite IH by exact Hw. reflexivity.
  - cbn [startswith]. destruct (Ascii.eqb_spec x c) as [-> | _]; [congruence|reflexivity].
Qed.

Lemma startswith_cat (a b : str) : forall s,
  startswith s (a ++ b) = startswith s a && startswith (drop (length a) s) b.
Proof.
  induction a as [|x a IH]; intros s; [reflexivity|].
  destruct s as [|c s]; [reflexivity|].
  cbn [app startswith length drop]. rewrite IH. apply andb_assoc.
Qed.

Section Greedy.
Context {R : Type}.

(** A greedy run whose continuation takes no character of the class
    gives up nothing. *)
Lemma rep_greedy_skip (p : cls) (k : option ascii -> str -> option R) :
  (forall prev prev' s, k prev s = k prev' s) ->
  (forall prev c s, p c = true -> k prev (c :: s) = None) ->
  forall s prev, rep_greedy p prev s k = k prev (lstrip_by p s).
Proof.
  intros Hb Hk. induction s as [|c s IH]; intros prev; [reflexivity|].
  cbn [rep_greedy lstrip_by]. destruct (p c) eqn:Hc; [|reflexivity].
  rewrite IH, (Hk prev c s Hc), (Hb (Some c) prev).
  destruct (k prev (lstrip_by p s)); reflexivity.
Qed.

End Greedy.

(** The text after the [#] and the whitespace, as the opener pattern reads
    it. *)
Definition opener_tail : regex :=
  Cat (Lit "if") (Cat (Opt (Alt (Lit "def") (Lit "ndef"))) WordB).

Lemma opener_tail_found (prev : option ascii) (r : str) :
  found (exec opener_tail prev r None accept) = opener_name (word_at r).
Proof.
  unfold opener_tail, opener_name, Opt.
  rewrite !word_at_is by reflexivity.
  change (lit "ifdef") with (lit "if" ++ lit "def").
  change (lit "ifndef") with (lit "if" ++ lit "ndef").
  rewrite !startswith_cat.
  cbn [exec]. rewrite exec_lit.
  destruct (startswith r "if"); [|reflexivity].
  cbn [andb]. rewrite !exec_lit.
  change (length (lit "if")) with 2%nat.
  change (length (lit "if" ++ lit "def")) with 5%nat.
  change (length (lit "if" ++ lit "ndef")) with 6%nat.
  change (length (lit "def")) with 3%nat. change (length (lit "ndef")) with 4%nat.
  replace (drop 5 r) with (drop 3 (drop 2 r)) by (rewrite drop_drop; reflexivity).
  replace (drop 6 r) with (drop 4 (drop 2 r)) by (rewrite drop_drop; reflexivity).
  generalize (drop 2 r). intros r2.
  change (lastp prev (lit "if")) with (Some "f"%char).
  change (lastp (Some "f"%char) (lit "def")) with (Some "f"%char).
  change (lastp (Some "f"%char) (lit "ndef")) with (Some "f"%char).
  unfold at_wordb, accept. change (is_word (Some "f"%char)) with true. cbn [xorb].
  destruct (startswith r2 "def"), (startswith r2 "ndef");
    destruct (is_word (head r2)), (is_word (head (drop 3 r2))),
             (is_word (head (drop 4 r2))); reflexivity.
Qed.

(** The opener pattern matches exactly the lines whose directive name is
    [if], [ifdef] or [ifndef]. *)
Lemma if_re_opener (rest : str) :
  found (re_match if_re ("#"%char :: rest)) = opener_name (word_at (lstrip rest)).
Proof.
  unfold re_match.
  change if_re with (Cat (Lit "#") (Cat (Star ws) opener_tail)).
  cbn [exec]. rewrite exec_lit. cbn [startswith Ascii.eqb Bool.eqb andb length drop].
  cbn [exec Star].
  rewrite (rep_greedy_skip ws (fun prev' s' => exec opener_tail prev' s' None accept)).
  - apply opener_tail_found.
  - intros prev prev' s. unfold opener_tail. cbn [exec]. rewrite !exec_lit.
    change (lastp prev (lit "if")) with (Some "f"%char).
    change (lastp prev' (lit "if")) with (Some "f"%char). reflexivity.
  - intros prev c s Hc. unfold opener_tail. cbn [exec]. rewrite exec_lit.
    change (startswith (c :: s) (lit "if"))
      with (Ascii.eqb "i" c && startswith s (lit "f")).
    destruct (Ascii.eqb_spec "i" c) as [<- | _]; [vm_compute in Hc; discriminate|reflexivity].
Qed.

(** ** Where the scan and the directives agree *)

(** A directive line is plain when a name that begins with [else], [elif]
    or [endif] is that word and follows the [#] directly. *)
Definition plain (line : str) : bool :=
  match directive_name line with
  | Some name =>
      forallb (fun kw : str =>
                 implb (startswith name kw)
                       (str_eqb name kw && startswith (strip line) (lit "#" ++ kw)))
              [lit "else"; lit "elif"; lit "endif"]
  | None => true
  end.

Lemma closer_seen (kw rest : str) (k0 : ascii) (kw' : str) :
  kw = k0 :: kw' -> forallb word kw = true ->
  implb (startswith (word_at (lstrip rest)) kw)
        (str_eqb (word_at (lstrip rest)) kw && startswith rest kw) = true ->
  startswith rest kw = str_eqb (word_at (lstrip rest)) kw.
Proof.
  intros Ek Hw H.
  destruct (startswith rest kw) eqn:E.
  - assert (Hl : lstrip rest = rest).
    { subst kw. apply startswith_cons in E as (s' & -> & _).
      cbn [forallb] in Hw. apply andb_true_iff in Hw as [Hw _].
      unfold lstrip. cbn [lstrip_by]. rewrite (word_not_space _ Hw). reflexivity. }
    rewrite Hl in *. rewrite startswith_word_at, E in H by exact Hw.
    cbn [implb] in H. rewrite andb_true_r in H. congruence.
  - rewrite andb_false_r in H.
    destruct (str_eqb (word_at (lstrip rest)) kw) eqn:Eq; [|reflexivity].
    apply bool_decide_eq_true in Eq. rewrite Eq in H.
    rewrite <- (app_nil_r kw) in H at 1. rewrite startswith_self in H. discriminate.
Qed.

(** On a plain line the scan sees the directive the line is. *)
Lemma scanned_as_classify (line : str) :
  plain line = true -> scanned_as line = classify line.
Proof.
  unfold plain, scanned_as, classify, directive_name. cbv zeta.
  destruct (strip line) as [|c rest]; [reflexivity|].
  destruct (Ascii.eqb_spec c "#") as [-> | Hne].
  - change (startswith ("#"%char :: rest) (lit "#")) with true.
    change (startswith ("#"%char :: rest) (lit "#else")) with (startswith rest (lit "else")).
    change (startswith ("#"%char :: rest) (lit "#elif")) with (startswith rest (lit "elif")).
    change (startswith ("#"%char :: rest) (lit "#endif"))
      with (startswith rest (lit "endif")).
    rewrite if_re_opener. cbn [forallb]. rewrite !andb_true_iff. intros (H1 & H2 & H3 & _).
    change (startswith ("#"%char :: rest) (lit "#" ++ lit "else"))
      with (startswith rest (lit "else")) in H1.
    change (startswith ("#"%char :: rest) (lit "#" ++ lit "elif"))
      with (startswith rest (lit "elif")) in H2.
    change (startswith ("#"%char :: rest) (lit "#" ++ lit "endif"))
      with (startswith rest (lit "endif")) in H3.
    rewrite (closer_seen (lit "else") rest _ _ eq_refl eq_refl H1).
    rewrite (closer_seen (lit "elif") rest _ _ eq_refl eq_refl H2).
    rewrite (closer_seen (lit "endif") rest _ _ eq_refl eq_refl H3).
    reflexivity.
  - intros _.
    change (startswith (c :: rest) (lit "#")) with (Ascii.eqb "#" c && true).
    rewrite Ascii.eqb_sym. destruct (Ascii.eqb_spec c "#"); [contradiction|reflexivity].
Qed.

Lemma map_scanned_as_classify (context_lines : list str) :
  Forall (fun l => plain l = true) context_lines ->
  map scanned_as context_lines = map classify context_lines.
Proof.
  induction 1 as [|l ls Hl _ IH]; [reflexivity|].
  cbn [map]. rewrite (scanned_as_classify l Hl), IH. reflexivity.
Qed.

(** A file whose third line follows an [#else] without an [#if], and the
    same file with a blank between the [#] and the [else]. *)
Definition orphan_else_file : list str :=
  [lit "int a;" ++ [nl]; lit "#else" ++ [nl]; lit "int b;" ++ [nl]; lit "int c;" ++ [nl]].

Definition spaced_else_file : list str :=
  [lit "int a;" ++ [nl]; lit "# else" ++ [nl]; lit "int b;" ++ [nl]; lit "int c;" ++ [nl]].

(** C2: on plain lines the balance checker reports invalid exactly when,
    scanning from the top with a push on each [#if]/[#ifdef]/[#ifndef] and a
    pop on each [#endif], some [#else], [#elif] or [#endif] is met while the
    stack of openers is empty; unmatched openers alone are accepted; and the
    Pair Extractor builds no pair from a candidate whose cleaned context
    window holds an [#else] with no opener before it in the window.  The
    openers may have whitespace after the [#]; a closer written so is not
    seen: the context [# else], [int b;] is accepted and the extractor
    emits its pair.  A name that only begins with [else], as in
    [#elsewhere], is taken for the closer. *)
Theorem balance_checker_rejects_orphans :
  (forall context_lines,
     Forall (fun l => plain l = true) context_lines ->
     (has_invalid_preprocessor_structure context_lines = true
      <-> orphaned (map classify context_lines)))
  /\ (forall context_lines,
        Forall (fun l => plain l = true) context_lines ->
        Forall (fun l => classify l = Opener \/ classify l = Other) context_lines ->
        has_invalid_preprocessor_structure context_lines = false)
  /\ (forall lines n_out idx context_len context_end pre l post,
        getitem (code_indices lines) idx = Some context_end ->
        (0 <= context_end - context_len + 1)%Z ->
        context_window lines (context_end - context_len + 1) context_end
          = Some (pre ++ l :: post) ->
        Forall (fun x => plain x = true) (pre ++ l :: post) ->
        classify l = Else ->
        Forall (fun x => classify x <> Opener) pre ->
        candidate lines n_out idx context_len = Some None)
  /\ (classify (lit "# if A") = Opener /\ scanned_as (lit "# if A") = Opener)
  /\ (classify (lit "# else") = Else /\ scanned_as (lit "# else") = Other)
  /\ (classify (lit "#elsewhere") = Other /\ scanned_as (lit "#elsewhere") = Else)
  /\ has_invalid_preprocessor_structure [lit "# if A"; lit "#else"] = false
  /\ orphaned (map classify [lit "# else"; lit "int b;"])
  /\ has_invalid_preprocessor_structure [lit "# else"; lit "int b;"] = false
  /\ candidate spaced_else_file 1 2 2
     = Some (Some (lit "# else" ++ [nl] ++ lit "int b;", lit "int c;")).
Proof.
  assert (A : forall context_lines,
             Forall (fun l => plain l = true) context_lines ->
             (has_invalid_preprocessor_structure context_lines = true
              <-> orphaned (map classify context_lines))).
  { intros context_lines Hp. rewrite <- (map_scanned_as_classify _ Hp).
    unfold has_invalid_preprocessor_structure. apply scan_orphaned. }
  split; [exact A|]. split; [|split].
  - intros context_lines Hp H.
    destruct (has_invalid_preprocessor_structure context_lines) eqn:E; [|reflexivity].
    apply (A _ Hp) in E. exfalso. revert E. apply no_closer_not_orphaned.
    apply Forall_map. eapply Forall_impl; [exact H|].
    intros l [E | E] [C | [C | C]]; simpl in *; congruence.
  - intros lines n_out idx context_len context_end pre l post Hg Hs Hw Hp Hl Hpre.
    unfold candidate. rewrite Hg. cbn [mbind option_bind]. cbv zeta.
    destruct (Z.ltb_spec (context_end - context_len + 1) 0); [reflexivity|].
    rewrite Hw. cbn [mbind option_bind].
    replace (has_invalid_preprocessor_structure (pre ++ l :: post)) with true;
      [reflexivity|].
    symmetry. apply (A _ Hp). rewrite map_app. cbn [map].
    exists (map classify pre), (classify l), (map classify post).
    split; [reflexivity|]. split; [rewrite Hl; unfold closer; auto|].
    apply depth_after_no_opener. apply Forall_map. exact Hpre.
  - split; [split; vm_compute; reflexivity|].
    split; [split; vm_compute; reflexivity|].
    split; [split; vm_compute; reflexivity|].
    split; [vm_compute; reflexivity|].
    split; [|split; vm_compute; reflexivity].
    exists [], Else, [Other]. split; [vm_compute; reflexivity|].
    split; [unfold closer; auto|reflexivity].
Qed.

Lemma balance_checker_rejects_orphans_witness :
  (has_invalid_preprocessor_structure [lit "#ifdef A"; lit "#else"; lit "int b;"] = true
   <-> orphaned (map classify [lit "#ifdef A"; lit "#else"; lit "int b;"]))
  /\ has_invalid_preprocessor_structure [lit "#ifdef A"; lit "int b;"] = false
  /\ candidate orphan_else_file 1 2 2 = Some None.
Proof.
  destruct balance_checker_rejects_orphans as (H1 & H2 & H3 & _).
  split; [apply H1; repeat (constructor; [reflexivity|]); constructor|split].
  - apply H2.
    + repeat (constructor; [reflexivity|]). constructor.
    + constructor; [left; reflexivity|]. constructor; [right; reflexivity|]. constructor.
  - apply (H3 orphan_else_file 1%Z 2%Z 2%Z 2%Z [] (lit "#else") [lit "int b;"]).
    + vm_compute. reflexivity.
    + lia.
    + vm_compute. reflexivity.
    + repeat (constructor; [reflexivity|]). constructor.
    + vm_compute. reflexivity.
    + constructor.
Defined.

End PreprocessorBalance.

(** * Survivors of the Phase-2 filter (C5) *)

Section Phase2Records.
Import ApplyMiddleContentFilter.








End Phase2Records.

(** * Survivors of the Phase-3 filter (C6) *)

Section Phase3Records.
Import ApplyPhase3bImprovedFilter.









End Phase3Records.
